(** * dipperin-core: the receipts/gas stage of the block insertion chain,
      and the account-state readers of the full chain service

    Sources embedded here:
    - [core/cs-chain/chain-writer/middleware/insert_receipts.go]
      ([ValidGasUsedAndReceipts]);
    - the service file of package [service] ([CurrentBalance],
      [VerifierStatus]).

    Go's [uint64] is modelled as [N]: the stage only assigns and compares
    such values, it never adds them, so no wrap-around is involved.  A
    [common.Hash] (32 bytes) and a [common.Address] are read as the number
    their bytes spell; only equality is ever used on them. *)

From stdpp Require Import base option list gmap strings.
From Stdlib Require Import NArith Lia.

Local Open Scope N_scope.

Definition uint64 := N.
Definition Hash := N.
Definition Address := N.

(** ** The block model ([core/model], [core/vm/model]) *)

Module model.

(** Modelled from the spec: [model2.Receipt] (package [core/vm/model] is
    not among the sources).  The spec's receipt records the cumulative gas
    used up to and including its transaction, the gas consumed by the
    transaction itself, the emitted logs and the status. *)
Record Receipt := {
  Status : uint64;
  CumulativeGasUsed : uint64;
  GasUsed : uint64;
  Logs : list string
}.

Definition Receipts := list Receipt.

(** [model.AbstractTransaction], as far as the stage looks at it:
    [GetReceipt] returns the receipt attached by the execution that ran
    before, or nil. *)
Record AbstractTransaction := {
  CalTxId : Hash;
  GetReceipt : option Receipt
}.

(** [model.AbstractHeader]: the fields the stage reads. *)
Record AbstractHeader := {
  HeaderNumber : uint64;
  GetGasUsed : uint64;
  GetGasLimit : uint64;
  HeaderReceiptHash : Hash
}.

(** [model.AbstractBlock]: header, body and the special-block mark. *)
Record AbstractBlock := {
  Header : AbstractHeader;
  Txs : list AbstractTransaction;
  IsSpecial : bool
}.

Definition Number (b : AbstractBlock) : uint64 := HeaderNumber (Header b).
Definition TxCount (b : AbstractBlock) : nat := length (Txs b).
Definition GetReceiptHash (b : AbstractBlock) : Hash :=
  HeaderReceiptHash (Header b).

(** Modelled from the spec: [AbstractBlock.TxIterator] (package
    [core/model] is not among the sources).  The callback is run on the
    transactions of the body in index order; the first error it returns
    stops the iteration and is the iterator's result.  The variables the
    Go closure captures and assigns are threaded through as [s]. *)
Fixpoint TxIterator_from {E St : Type} (i : nat) (txs : list AbstractTransaction)
    (cb : nat -> AbstractTransaction -> St -> E + St) (s : St) : E + St :=
  match txs with
  | [] => inr s
  | tx :: rest =>
      match cb i tx s with
      | inl err => inl err
      | inr s' => TxIterator_from (S i) rest cb s'
      end
  end.

Definition TxIterator {E St : Type} (b : AbstractBlock)
    (cb : nat -> AbstractTransaction -> St -> E + St) (s : St) : E + St :=
  TxIterator_from 0 (Txs b) cb s.

End model.

(** ** The middleware chain ([core/cs-chain/chain-writer/middleware]) *)

Module middleware.
Import model.

(** The values of package [g-error] the stage returns; [OtherError] stands
    for whatever error a later stage hands back through [Next]. *)
Inductive error :=
| ErrEmptyReceipt
| ReceiptHashError
| ErrGasUsedIsInvalid
| ErrTxGasIsOverRanging
| OtherError (text : string).

(** [ChainInterface], as far as the stage uses it: [CurrentBlock()], taken
    to return a block (the stage only prints its number). *)
Record ChainInterface := { CurrentBlock : AbstractBlock }.

Record BlockContext := {
  Block : AbstractBlock;
  Chain : ChainInterface;
  receipts : Receipts
}.

(** What the stage does to the outside, in the order it does it: log
    lines (with the numbers or hashes they print), the call of
    [model.DeriveSha], and the call of [c.Next()] together with the
    context the rest of the chain is entered with. *)
Inductive Event :=
| LogInfo (msg : string) (args : list N)
| LogError (msg : string) (args : list N)
| CallDeriveSha (rs : Receipts)
| CallNext (c : BlockContext).

Record World := { ctx : BlockContext; trace : list Event }.

(** State and error monad of a middleware body. *)
Definition M (A : Type) : Type := World -> (error + A) * World.

#[export] Instance M_ret : MRet M := fun A a w => (inr a, w).
#[export] Instance M_bind : MBind M := fun A B f m w =>
  match m w with
  | (inl e, w') => (inl e, w')
  | (inr a, w') => f a w'
  end.
#[export] Instance M_throw : MThrow error M := fun A e w => (inl e, w).

Definition emit (ev : Event) : M unit := fun w =>
  (inr tt, {| ctx := ctx w; trace := trace w ++ [ev] |}).
Definition getContext : M BlockContext := fun w => (inr (ctx w), w).
Definition setReceipts (rs : Receipts) : M unit := fun w =>
  (inr tt,
   {| ctx := {| Block := Block (ctx w); Chain := Chain (ctx w); receipts := rs |};
      trace := trace w |}).

(** The variables the iteration closure of the stage assigns. *)
Record Locals := { l_receipts : Receipts; accumulatedGas : uint64 }.

(** The closure handed to [TxIterator] (insert_receipts.go, 36-44). *)
Definition receiptCallback (i : nat) (transaction : AbstractTransaction)
    (l : Locals) : error + Locals :=
  match GetReceipt transaction with
  | None => inl ErrEmptyReceipt
  | Some receipt =>
      inr {| l_receipts := l_receipts l ++ [receipt];
             accumulatedGas := CumulativeGasUsed receipt |}
  end.

Section Stage.
(** [model.DeriveSha] on receipts and the rest of the chain behind
    [c.Next()] are not among the sources; the stage is embedded for any
    pair of them.  [Next] gets the shared context and gives back the
    error of the remaining stages (or nil) and the context they leave. *)
Variable DeriveSha : Receipts -> Hash.
Variable Next : BlockContext -> option error * BlockContext.

Definition callDeriveSha (rs : Receipts) : M Hash :=
  emit (CallDeriveSha rs);; mret (DeriveSha rs).

Definition callNext : M unit := fun w =>
  let '(err, c') := Next (ctx w) in
  (match err with Some e => inl e | None => inr tt end,
   {| ctx := c'; trace := trace w ++ [CallNext (ctx w)] |}).

(** insert_receipts.go, 26-69: the body of the closure
    [ValidGasUsedAndReceipts(c)] returns.  The capacity [TxCount] given to
    [make] does not show in the value of [receipts]. *)
Definition ValidGasUsedAndReceipts : M unit :=
  c ← getContext;
  if IsSpecial (Block c) then callNext
  else
    let curBlock := CurrentBlock (Chain c) in
    emit (LogInfo "Insert block receipts" [Number curBlock; Number (Block c)]);;
    match TxIterator (Block c) receiptCallback
            {| l_receipts := []; accumulatedGas := 0 |} with
    | inl err => mthrow err
    | inr l =>
        receiptHash ← callDeriveSha (l_receipts l);
        if negb (receiptHash =? GetReceiptHash (Block c)) then
          emit (LogError "InsertReceipts receiptHash not match"
                  [receiptHash; GetReceiptHash (Block c)]);;
          mthrow ReceiptHashError
        else if negb (accumulatedGas l =? GetGasUsed (Header (Block c))) then
          emit (LogError "InsertReceipts accumulatedGas not match"
                  [accumulatedGas l; GetGasUsed (Header (Block c))]);;
          mthrow ErrGasUsedIsInvalid
        else if GetGasLimit (Header (Block c)) <? accumulatedGas l then
          mthrow ErrTxGasIsOverRanging
        else
          setReceipts (l_receipts l);;
          callNext
    end.

(** The stage entered on a fresh trace with context [c]. *)
Definition run (c : BlockContext) : (error + unit) * World :=
  ValidGasUsedAndReceipts {| ctx := c; trace := [] |}.

End Stage.

(** *** Vocabulary of the statements *)

(** The receipts attached to a list of transactions, in the order of the
    list; [None] as soon as one transaction has none. *)
Definition receiptsOf (txs : list AbstractTransaction) : option Receipts :=
  mapM GetReceipt txs.

(** The cumulative counter of the last receipt, [g] when there is none. *)
Definition lastCumulativeFrom (g : uint64) (rs : Receipts) : uint64 :=
  from_option CumulativeGasUsed g (last rs).
Definition lastCumulative (rs : Receipts) : uint64 := lastCumulativeFrom 0 rs.

(** The sum of the gas each transaction consumed by itself. *)
Definition sumGasUsed (rs : Receipts) : N :=
  foldr (fun r acc => GasUsed r + acc) 0 rs.

(** Receipts that are cumulative by construction: each counter is the
    counter before it plus the gas of its own transaction. *)
Fixpoint cumulativeFrom (prev : uint64) (rs : Receipts) : bool :=
  match rs with
  | [] => true
  | r :: rest =>
      (CumulativeGasUsed r =? prev + GasUsed r) && cumulativeFrom (CumulativeGasUsed r) rest
  end.

Definition withReceipts (c : BlockContext) (rs : Receipts) : BlockContext :=
  {| Block := Block c; Chain := Chain c; receipts := rs |}.

(** The log line every non-special block starts with. *)
Definition enterLine (c : BlockContext) : Event :=
  LogInfo "Insert block receipts" [Number (CurrentBlock (Chain c)); Number (Block c)].
Definition hashLine (h : Hash) (c : BlockContext) : Event :=
  LogError "InsertReceipts receiptHash not match" [h; GetReceiptHash (Block c)].
Definition gasLine (g : uint64) (c : BlockContext) : Event :=
  LogError "InsertReceipts accumulatedGas not match" [g; GetGasUsed (Header (Block c))].

(** The stage stopped the chain: error [e], context [c], trace [t]. *)
Definition aborted (e : error) (c : BlockContext) (t : list Event)
    : (error + unit) * World :=
  (inl e, {| ctx := c; trace := t |}).

(** No event of the trace is a call of [c.Next()]. *)
Definition nextNotCalled (t : list Event) : Prop :=
  forall c, ~ In (CallNext c) t.

(** The stage handed over to the rest of the chain, entered with context
    [c] after the events [t]. *)
Definition continued (Next : BlockContext -> option error * BlockContext)
    (c : BlockContext) (t : list Event) : (error + unit) * World :=
  callNext Next {| ctx := c; trace := t |}.

(** The errors the stage raises by itself. *)
Definition ownErrors : list error :=
  [ErrEmptyReceipt; ReceiptHashError; ErrGasUsedIsInvalid; ErrTxGasIsOverRanging].

(** The variables of the iteration before the first transaction. *)
Definition initialLocals : Locals := {| l_receipts := []; accumulatedGas := 0 |}.

(** Every check of the stage passes on [c], with [rs] the receipts. *)
Definition passes (DeriveSha : Receipts -> Hash) (c : BlockContext) (rs : Receipts) : Prop :=
  receiptsOf (Txs (Block c)) = Some rs /\
  DeriveSha rs = GetReceiptHash (Block c) /\
  lastCumulative rs = GetGasUsed (Header (Block c)) /\
  lastCumulative rs <= GetGasLimit (Header (Block c)).

End middleware.

(** ** The account state database ([core/chain/state-processor]) *)

Module state_processor.

(** A Go [error] as the service observes it: through the text [Error()]
    returns. *)
Record error := errors_New { Error : string }.

(** Modelled from the spec: the error of reading an address that was never
    created ([g_error.AccountNotExist]; package [g-error] is not among the
    sources).  Its text is the literal the service compares with. *)
Definition AccountNotExist : error := errors_New "account does not exist".

(** Modelled from the spec: the account record (the fields with a getter
    the service calls; code, abi and storage are left out). *)
Record Account := {
  Balance : Z;
  Nonce : uint64;
  Stake : Z;
  Performance : uint64;
  LastElect : uint64
}.

Definition zeroAccount : Account :=
  {| Balance := 0%Z; Nonce := 0; Stake := 0%Z; Performance := 0; LastElect := 0 |}.

(** Modelled from the spec: [AccountStateDB] (account_state_db.go is not
    among the sources), a mapping from address to account. *)
Record AccountStateDB := { accounts : gmap Address Account }.

Definition emptyDB : AccountStateDB := {| accounts := ∅ |}.

(** Modelled from the spec: [NewAccountState] creates a zero-value account
    if absent and changes nothing if one is present. *)
Definition NewAccountState (db : AccountStateDB) (addr : Address) : AccountStateDB :=
  match accounts db !! addr with
  | Some _ => db
  | None => {| accounts := <[addr := zeroAccount]> (accounts db) |}
  end.

(** Modelled from the spec: [GetBalance/GetNonce/GetStake/GetPerformance/
    GetLastElect(addr) -> value | error("account does not exist")]. *)
Definition readAccount {A : Type} (field : Account -> A)
    (db : AccountStateDB) (addr : Address) : error + A :=
  match accounts db !! addr with
  | Some a => inr (field a)
  | None => inl AccountNotExist
  end.

Definition GetBalance := readAccount Balance.
Definition GetNonce := readAccount Nonce.
Definition GetStake := readAccount Stake.
Definition GetPerformance := readAccount Performance.
Definition GetLastElect := readAccount LastElect.

(** The database after creating the addresses of [created], in order. *)
Definition createdFrom (created : list Address) : AccountStateDB :=
  foldl NewAccountState emptyDB created.

End state_processor.

(** ** The full chain service (package [service]) *)

Module service.
Import state_processor.

(** [*big.Int]: nil is [None]. *)
Definition BigInt := option Z.

(** The getters of the current state as the service calls them: each
    returns Go's pair of a value and an error. *)
Record StateReader := {
  GetBalance : Address -> BigInt * option error;
  GetStake : Address -> BigInt * option error;
  GetNonce : Address -> uint64 * option error;
  GetPerformance : Address -> uint64 * option error;
  GetLastElect : Address -> uint64 * option error
}.

(** What of [MercuryFullChainService] the two methods use:
    [ChainReader.CurrentState()], [ChainReader.GetCurrVerifiers()] and
    [PriorityCalculator.GetReputation]; each answers the same way every
    time it is called during one request. *)
Record MercuryFullChainService := {
  CurrentState : error + StateReader;
  GetCurrVerifiers : list Address;
  GetReputation : uint64 -> BigInt -> uint64 -> uint64 * option error
}.

(** service file, 177-190 (the log lines are left out). *)
Definition CurrentBalance (service : MercuryFullChainService)
    (address : Address) : BigInt :=
  match CurrentState service with
  | inl _ => None
  | inr curState =>
      let '(balance, err) := GetBalance curState address in
      match err with
      | Some _ => None
      | None => balance
      end
  end.

(** service file, 726-739: the errors of the two reads are overwritten. *)
Definition CurrentReputation (service : MercuryFullChainService)
    (addr : Address) : uint64 * option error :=
  match CurrentState service with
  | inl err => (0, Some err)
  | inr state =>
      let '(stake, _) := GetStake state addr in
      let '(performance, _) := GetPerformance state addr in
      let '(reputation, err) := GetReputation service 0 stake performance in
      match err with
      | Some e => (0, Some e)
      | None => (reputation, None)
      end
  end.

(** service file, 951-959. *)
Fixpoint isCurrentVerifier_in (vers : list Address) (address : Address) : bool :=
  match vers with
  | [] => false
  | v :: rest => if v =? address then true else isCurrentVerifier_in rest address
  end.
Definition isCurrentVerifier (service : MercuryFullChainService)
    (address : Address) : bool :=
  isCurrentVerifier_in (GetCurrVerifiers service) address.

(** The named results of [VerifierStatus]. *)
Record VerifierStatusResult := {
  verifierState : string;
  stake : BigInt;
  balance : BigInt;
  reputation : uint64;
  isCurrentVerifier_res : bool;
  err : option error
}.

(** A call either returns or panics (a method called on a nil [*big.Int]). *)
Inductive outcome :=
| Returns (r : VerifierStatusResult)
| Panics.

Definition status : list string :=
  ["Not Registered"; "Registered"; "Canceled"; "Unstaked"].
Definition statusAt (i : nat) : string := default "" (status !! i).

(** The two tests the reads apply to an error (901, 908, 915). *)
Definition isText (text : string) (e : error) : bool := String.eqb (Error e) text.
Definition returnsOnStakeError (e : error) : bool :=
  negb (isText "account does not exist" e) && negb (isText "stake not sufficient" e).
Definition returnsOnError (e : error) : bool :=
  negb (isText "account does not exist" e).

(** [if err != nil { if test(err) { return } }]: the error the function
    returns with at this point, if it does return. *)
Definition returnedError (test : error -> bool) (err : option error) : option error :=
  match err with
  | Some e => if test e then Some e else None
  | None => None
  end.

(** service file, 893-918: the reads.  [inl] is an early [return] with the
    named results as they stand, [inr] the stake, balance and last
    election the function goes on with. *)
Definition VerifierStatus_reads (service : MercuryFullChainService)
    (addr : Address) : VerifierStatusResult + (BigInt * BigInt * uint64) :=
  let early (stake balance : BigInt) (e : error) :=
    {| verifierState := statusAt 0; stake := stake; balance := balance;
       reputation := 0; isCurrentVerifier_res := false; err := Some e |} in
  match CurrentState service with
  | inl e => inl (early None None e)
  | inr state =>
      let '(stake, err) := GetStake state addr in
      match returnedError returnsOnStakeError err with
      | Some e => inl (early stake None e)
      | None =>
          let '(balance, err) := GetBalance state addr in
          match returnedError returnsOnError err with
          | Some e => inl (early stake balance e)
          | None =>
              let '(lastElect, err) := GetLastElect state addr in
              match returnedError returnsOnError err with
              | Some e => inl (early stake balance e)
              | None => inr (stake, balance, lastElect)
              end
          end
      end
  end.

(** service file, 920-948: the state of the verifier, the reputation and
    the error the call ends with.  [stake.Cmp] is evaluated whatever
    [lastElect] is, and panics on a nil stake. *)
Definition VerifierStatus_classify (service : MercuryFullChainService)
    (addr : Address) (stake balance : BigInt) (lastElect : uint64) : outcome :=
  match stake with
  | None => Panics
  | Some s =>
      let verifierState := statusAt 0 in
      let verifierState :=
        if (lastElect =? 0) && (s =? 0)%Z then statusAt 0 else verifierState in
      let verifierState :=
        if (lastElect =? 0) && negb (s =? 0)%Z then statusAt 1 else verifierState in
      let verifierState :=
        if negb (lastElect =? 0) && negb (s =? 0)%Z then statusAt 2 else verifierState in
      let verifierState :=
        if negb (lastElect =? 0) && (s =? 0)%Z then statusAt 3 else verifierState in
      let isCurrentVerifier := isCurrentVerifier service addr in
      let '(reputation, err) := CurrentReputation service addr in
      let err :=
        match err with
        | Some e =>
            if isText "account does not exist" e || isText "stake not sufficient" e
            then None else Some e
        | None => None
        end in
      Returns {| verifierState := verifierState; stake := stake; balance := balance;
                 reputation := reputation; isCurrentVerifier_res := isCurrentVerifier;
                 err := err |}
  end.

(** service file, 892-949. *)
Definition VerifierStatus (service : MercuryFullChainService)
    (addr : Address) : outcome :=
  match VerifierStatus_reads service addr with
  | inl r => Returns r
  | inr (stake, balance, lastElect) =>
      VerifierStatus_classify service addr stake balance lastElect
  end.

(** A reader [rd] answers for the database [db]: a value the database
    has is returned with a nil error, an error of the database is
    returned as the error (whatever value comes with it). *)
Definition answers {A B : Type} (inj : A -> B)
    (get : Address -> B * option error) (dbget : Address -> error + A) : Prop :=
  forall addr,
    match dbget addr with
    | inr v => get addr = (inj v, None)
    | inl e => (get addr).2 = Some e
    end.

Definition implements (rd : StateReader) (db : AccountStateDB) : Prop :=
  answers Some (GetBalance rd) (state_processor.GetBalance db) /\
  answers Some (GetStake rd) (state_processor.GetStake db) /\
  answers id (GetNonce rd) (state_processor.GetNonce db) /\
  answers id (GetPerformance rd) (state_processor.GetPerformance db) /\
  answers id (GetLastElect rd) (state_processor.GetLastElect db).

(** One such reader: an error comes with [zero] (a [*big.Int]: [nilInt]). *)
Definition pairOf {A B : Type} (inj : A -> B) (zero : B) (r : error + A)
    : B * option error :=
  match r with
  | inr v => (inj v, None)
  | inl e => (zero, Some e)
  end.

Definition readerOf (nilInt : BigInt) (db : AccountStateDB) : StateReader :=
  {| GetBalance := fun a => pairOf Some nilInt (state_processor.GetBalance db a);
     GetStake := fun a => pairOf Some nilInt (state_processor.GetStake db a);
     GetNonce := fun a => pairOf id 0 (state_processor.GetNonce db a);
     GetPerformance := fun a => pairOf id 0 (state_processor.GetPerformance db a);
     GetLastElect := fun a => pairOf id 0 (state_processor.GetLastElect db a) |}.

End service.

(** ** Concrete data the statements are tried on *)

Module fixtures.
Import model middleware.

(** A stand-in for the receipts root: any deterministic function does. *)
Definition toySha (rs : Receipts) : Hash :=
  foldl (fun h r => 31 * h + CumulativeGasUsed r + 1) 17 rs.

Definition nextOk (c : BlockContext) : option error * BlockContext := (None, c).
Definition nextFail (c : BlockContext) : option error * BlockContext :=
  (Some (OtherError "later stage failed"), c).

Definition rcpt (cum used : uint64) : Receipt :=
  {| Status := 1; CumulativeGasUsed := cum; GasUsed := used; Logs := [] |}.
Definition tx (id : Hash) (r : option Receipt) : AbstractTransaction :=
  {| CalTxId := id; GetReceipt := r |}.

Definition header (used limit : uint64) (root : Hash) : AbstractHeader :=
  {| HeaderNumber := 8; GetGasUsed := used; GetGasLimit := limit;
     HeaderReceiptHash := root |}.
Definition block (h : AbstractHeader) (txs : list AbstractTransaction)
    (special : bool) : AbstractBlock :=
  {| Header := h; Txs := txs; IsSpecial := special |}.

Definition parent : AbstractBlock := block (header 0 1000 (toySha [])) [] false.
Definition context (b : AbstractBlock) : BlockContext :=
  {| Block := b; Chain := {| CurrentBlock := parent |}; receipts := [] |}.

(** Two executed transactions, 100 then 150 units of gas. *)
Definition txA : AbstractTransaction := tx 1 (Some (rcpt 100 100)).
Definition txB : AbstractTransaction := tx 2 (Some (rcpt 250 150)).
(** A transaction the execution skipped. *)
Definition txSkipped : AbstractTransaction := tx 3 None.

Definition goodRoot : Hash := toySha [rcpt 100 100; rcpt 250 150].
Definition goodBlock : AbstractBlock :=
  block (header 250 1000 goodRoot) [txA; txB] false.

(** Receipts whose counters are not running totals: 100, then 50. *)
Definition skewedReceipts : Receipts := [rcpt 100 100; rcpt 50 50].
Definition skewedBlock : AbstractBlock :=
  block (header 50 1000 (toySha skewedReceipts))
    [tx 1 (Some (rcpt 100 100)); tx 2 (Some (rcpt 50 50))] false.

(** Two different transactions that consumed no gas after [txA]: their
    receipts are equal. *)
Definition twin1 : AbstractTransaction := tx 11 (Some (rcpt 100 0)).
Definition twin2 : AbstractTransaction := tx 12 (Some (rcpt 100 0)).
Definition twinReceipts : Receipts := [rcpt 100 100; rcpt 100 0; rcpt 100 0].
Definition twinHeader : AbstractHeader := header 100 1000 (toySha twinReceipts).
Definition twinBlock : AbstractBlock := block twinHeader [txA; twin1; twin2] false.
Definition twinBlockSwapped : AbstractBlock :=
  block twinHeader [txA; twin2; twin1] false.

(** The accounts of the test database: alice and bob are created,
    charlie never is. *)
Definition aliceAddr : Address := 1001.
Definition bobAddr : Address := 1002.
Definition charlieAddr : Address := 1003.
Definition testCreated : list Address := [aliceAddr; bobAddr].
Definition testDB : state_processor.AccountStateDB :=
  state_processor.createdFrom testCreated.

Definition testReader : service.StateReader := service.readerOf None testDB.
Definition testService : service.MercuryFullChainService :=
  {| service.CurrentState := inr testReader;
     service.GetCurrVerifiers := [aliceAddr];
     service.GetReputation := fun _ _ _ => (0, None) |}.

(** A reader whose balance read fails in the storage underneath. *)
Definition trieError : state_processor.error := state_processor.errors_New "trie error".
Definition brokenReader : service.StateReader :=
  {| service.GetBalance := fun _ => (None, Some trieError);
     service.GetStake := service.GetStake testReader;
     service.GetNonce := service.GetNonce testReader;
     service.GetPerformance := service.GetPerformance testReader;
     service.GetLastElect := service.GetLastElect testReader |}.
Definition brokenService : service.MercuryFullChainService :=
  {| service.CurrentState := inr brokenReader;
     service.GetCurrVerifiers := [aliceAddr];
     service.GetReputation := fun _ _ _ => (0, None) |}.

End fixtures.

(** ** The full chain service: stake, wallets, nonces and sending *)

Module service_tx.
Import state_processor service.

(** A call that returns [a] or panics (a nil pointer is dereferenced). *)
Inductive go (A : Type) :=
| Returned (a : A)
| Panic.
Arguments Returned {A} a.
Arguments Panic {A}.

(** Arithmetic of Go's [uint64]. *)
Definition wrap64 (n : N) : uint64 := n mod 2 ^ 64.

(** service file, 191-205 (the log lines are left out). *)
Definition CurrentStake (service : MercuryFullChainService)
    (address : Address) : BigInt :=
  match CurrentState service with
  | inl _ => None
  | inr curState =>
      let '(stake, err) := GetStake curState address in
      match err with
      | Some _ => None
      | None => stake
      end
  end.

(** service file, 816-826. *)
Definition GetTransactionNonce (service : MercuryFullChainService)
    (addr : Address) : uint64 * option error :=
  match CurrentState service with
  | inl err => (0, Some err)
  | inr state =>
      let '(nonce, err) := GetNonce state addr in
      match err with
      | Some e => (0, Some e)
      | None => (nonce, None)
      end
  end.

(** *** Wallet identifiers *)

(** [accounts.WalletType], as far as the service tells them apart. *)
Inductive WalletType :=
| SoftWallet
| OtherWallet (code : N).

Record WalletIdentifier := {
  WalletType_ : WalletType;
  Path : string;
  WalletName : string
}.

(** The two defaults [NodeConf] supplies. *)
Record NodeConf := {
  SoftWalletName : string;
  SoftWalletDir : string
}.

Definition isSoftWallet (t : WalletType) : bool :=
  match t with
  | SoftWallet => true
  | OtherWallet _ => false
  end.

Definition isEmptyString (x : string) : bool := String.eqb x "".

(** service file, 243-257.  The identifier is passed by pointer: the
    result holds it as the call leaves it, and the error. *)
Definition checkWalletIdentifier (conf : NodeConf)
    (walletIdentifier : WalletIdentifier) : WalletIdentifier * option error :=
  if negb (isSoftWallet (WalletType_ walletIdentifier)) then
    (walletIdentifier, Some (errors_New "wallet type error"))
  else
    let walletIdentifier :=
      if isEmptyString (WalletName walletIdentifier) then
        {| WalletType_ := WalletType_ walletIdentifier;
           Path := Path walletIdentifier;
           WalletName := SoftWalletName conf |}
      else walletIdentifier in
    let walletIdentifier :=
      if isEmptyString (Path walletIdentifier) then
        {| WalletType_ := WalletType_ walletIdentifier;
           Path := SoftWalletDir conf;
           WalletName := WalletName walletIdentifier |}
      else walletIdentifier in
    (walletIdentifier, None).

(** *** Sending a transaction *)

Section Sending.
(** [model.Transaction] is not among the sources: the service is embedded
    for any type of transactions. *)
Context {Tx : Type}.

(** [accounts.Wallet], as far as the sending methods call it.  [SignTx]
    is called with the account of the sender and the chain id of the
    configuration. *)
Record Wallet := {
  GetAddressNonce : Address -> uint64 * option error;
  SignTx : Address -> Tx -> error + Tx;
  SetAddressNonce : Address -> uint64 -> option error;
  Evaluate : Address -> Hash -> error + Hash
}.

(** What the sending methods reach through the configuration:
    [WalletManager.FindWalletFromAddress], [ChainReader.CurrentState()],
    [TxValidator.Valid], [TxPool.AddRemotes] and [TxPool.AddLocals] (one
    error or nil per transaction), [DefaultAccount],
    [model.NewTransaction] and [CalTxId]. *)
Record SendEnv := {
  FindWalletFromAddress : Address -> error + Wallet;
  ChainState : error + StateReader;
  Valid : Tx -> option error;
  AddRemotes : list Tx -> list (option error);
  AddLocals : list Tx -> list (option error);
  DefaultAccount : Address;
  NewTransaction : uint64 -> Address -> BigInt -> BigInt -> list N -> Tx;
  CalTxId : Tx -> Hash
}.

(** What a sending method does to the pool, the network and the wallet,
    in the order it does it. *)
Inductive SendEvent :=
| PoolAddRemotes (txs : list Tx)
| PoolAddLocals (txs : list Tx)
| BroadcastTx (txs : list Tx)
| WalletSetAddressNonce (address : Address) (nonce : uint64).

(** [for i := range errs { if errs[i] != nil { return errs[i] } }]. *)
Fixpoint firstError (errs : list (option error)) : option error :=
  match errs with
  | [] => None
  | Some e :: _ => Some e
  | None :: rest => firstError rest
  end.

(** service file, 488-527 (the log lines are left out). *)
Definition getSendTxInfo (env : SendEnv) (from : Address)
    (nonce : option uint64) : error + (Wallet * uint64) :=
  match FindWalletFromAddress env from with
  | inl err => inl err
  | inr tmpWallet =>
      match ChainState env with
      | inl err => inl err
      | inr state =>
          let '(chainNonce, err) := GetNonce state from in
          match err with
          | Some e => inl e
          | None =>
              let '(walletNonce, _) := GetAddressNonce tmpWallet from in
              let spendableNonce :=
                if walletNonce <? chainNonce then chainNonce else walletNonce in
              let txNonce :=
                match nonce with
                | None => spendableNonce
                | Some n => n
                end in
              inr (tmpWallet, txNonce)
          end
      end
  end.

(** service file, 529-560 (the log lines are left out). *)
Definition signTxAndSend (env : SendEnv) (tmpWallet : Wallet) (from : Address)
    (tx : Tx) (usedNonce : uint64) : (error + Tx) * list SendEvent :=
  match SignTx tmpWallet from tx with
  | inl err => (inl err, [])
  | inr signedTx =>
      match Valid env signedTx with
      | Some err => (inl err, [])
      | None =>
          let tsx := [signedTx] in
          let errs := AddRemotes env tsx in
          match firstError errs with
          | Some err => (inl err, [PoolAddRemotes tsx])
          | None =>
              let events :=
                [PoolAddRemotes tsx; BroadcastTx tsx;
                 WalletSetAddressNonce from (wrap64 (usedNonce + 1))] in
              match SetAddressNonce tmpWallet from (wrap64 (usedNonce + 1)) with
              | Some err => (inl err, events)
              | None => (inr signedTx, events)
              end
          end
      end
  end.

(** service file, 599-613. *)
Definition NewSendTransactions (env : SendEnv) (txs : list Tx)
    : (nat * option error) * list SendEvent :=
  let temtxs := txs in
  let errs := AddLocals env temtxs in
  match firstError errs with
  | Some err => ((0%nat, Some err), [PoolAddLocals temtxs])
  | None => ((length txs, None), [PoolAddLocals temtxs])
  end.

(** service file, 616-644 (the log lines are left out); the zero hash is
    returned with every error. *)
Definition SendTransaction (env : SendEnv) (from to : Address)
    (value transactionFee : BigInt) (data : list N) (nonce : option uint64)
    : (Hash * option error) * list SendEvent :=
  let noAccount := errors_New "no default account in this node" in
  let from' := if from =? 0 then DefaultAccount env else from in
  if (from =? 0) && (from' =? 0) then ((0, Some noAccount), [])
  else
    match getSendTxInfo env from' nonce with
    | inl err => ((0, Some err), [])
    | inr (tmpWallet, usedNonce) =>
        let tx := NewTransaction env usedNonce to value transactionFee data in
        match signTxAndSend env tmpWallet from' tx usedNonce with
        | (inl err, events) => ((0, Some err), events)
        | (inr signTx, events) => ((CalTxId env signTx, None), events)
        end
    end.

(** *** Election priority *)

(** What [CurrentElectPriority] reaches besides the wallets:
    [ChainReader.CurrentSeed()], [GetSlot(CurrentBlock())] (a pointer,
    possibly nil), [ChainReader.NumBeforeLastBySlot] (a pointer, possibly
    nil), [ChainReader.StateAtByBlockNumber] and
    [PriorityCalculator.GetElectPriority]. *)
Record ElectEnv := {
  CurrentSeed : Hash * uint64;
  GetSlot : option uint64;
  NumBeforeLastBySlot : uint64 -> option uint64;
  StateAtByBlockNumber : uint64 -> error + StateReader;
  GetElectPriority : Hash -> uint64 -> BigInt -> uint64 -> uint64 * option error
}.

(** service file, 668-684: luck, proof is left out, block number. *)
Definition getLuckProof (env : SendEnv) (elect : ElectEnv) (addr : Address)
    : error + (Hash * uint64) :=
  match FindWalletFromAddress env addr with
  | inl err => inl err
  | inr tmpWallet =>
      let '(seed, blockNumber) := CurrentSeed elect in
      match Evaluate tmpWallet addr seed with
      | inl err => inl err
      | inr luck => inr (luck, blockNumber)
      end
  end.

(** service file, 686-724 (the log lines are left out). *)
Definition CurrentElectPriority (env : SendEnv) (elect : ElectEnv)
    (addr : Address) : go (uint64 * option error) :=
  match getLuckProof env elect addr with
  | inl err => Returned (0, Some err)
  | inr (luck, _) =>
      match GetSlot elect with
      | None => Panic
      | Some slot =>
          match NumBeforeLastBySlot elect slot with
          | None => Returned (0, Some (errors_New "number before last is nil"))
          | Some num =>
              match StateAtByBlockNumber elect num with
              | inl err => Returned (0, Some err)
              | inr state =>
                  let '(accountNonce, err) := GetNonce state addr in
                  match err with
                  | Some e => Returned (0, Some e)
                  | None =>
                  let '(stake, err) := GetStake state addr in
                  match err with
                  | Some e => Returned (0, Some e)
                  | None =>
                  let '(performance, err) := GetPerformance state addr in
                  match err with
                  | Some e => Returned (0, Some e)
                  | None =>
                  let '(priority, err) :=
                    GetElectPriority elect luck accountNonce stake performance in
                  match err with
                  | Some e => Returned (0, Some e)
                  | None => Returned (priority, None)
                  end end end end
              end
          end
      end
  end.

End Sending.

Arguments Wallet Tx : clear implicits.
Arguments SendEnv Tx : clear implicits.
Arguments SendEvent Tx : clear implicits.

End service_tx.

(** ** The state double of the tests
    ([core/chain/state-processor/test_info_test.go]) *)

Module test_info_test.
Import service_tx.

(** [fakeStateDB.account]: a Go map from address to [*big.Int], taken to
    be made (not nil) and to hold no nil pointer; the methods have value
    receivers, and the map they write is the one the caller holds. *)
Record fakeStateDB := { account : gmap Address Z }.

(** test_info_test.go, 468-470. *)
Definition CreateAccount (state : fakeStateDB) (addr : Address) : fakeStateDB :=
  {| account := <[addr := 1000%Z]> (account state) |}.

(** test_info_test.go, 472-476; the amount is a number, not a nil pointer. *)
Definition AddBalance (state : fakeStateDB) (addr : Address) (amount : Z) : fakeStateDB :=
  match account state !! addr with
  | Some b => {| account := <[addr := (b + amount)%Z]> (account state) |}
  | None => state
  end.

(** test_info_test.go, 478-480: [Sub] on the nil pointer of an absent
    address panics. *)
Definition SubBalance (state : fakeStateDB) (addr : Address) (amount : Z)
    : go fakeStateDB :=
  match account state !! addr with
  | Some b => Returned {| account := <[addr := (b - amount)%Z]> (account state) |}
  | None => Panic
  end.

(** test_info_test.go, 482-487: the balance, and the map as the read
    leaves it. *)
Definition GetBalance (state : fakeStateDB) (addr : Address) : Z * fakeStateDB :=
  match account state !! addr with
  | Some b => (b, state)
  | None => (9000000%Z, {| account := <[addr := 9000000%Z]> (account state) |})
  end.

End test_info_test.

(** ** More concrete data *)

Module fixtures_tx.
Import state_processor service service_tx.

(** A transaction as the examples need it: its fields and who signed it. *)
Record DemoTx := {
  dNonce : uint64;
  dTo : Address;
  dValue : BigInt;
  dSigner : option Address
}.

Definition demoSign (from : Address) (tx : DemoTx) : error + DemoTx :=
  inr {| dNonce := dNonce tx; dTo := dTo tx; dValue := dValue tx;
         dSigner := Some from |}.

(** A wallet that remembers nonce 7 for every address. *)
Definition demoWallet : Wallet DemoTx :=
  {| GetAddressNonce := fun _ => (7, None);
     SignTx := demoSign;
     SetAddressNonce := fun _ _ => None;
     Evaluate := fun _ seed => inr (seed + 1) |}.

(** The same wallet with a store that cannot be written. *)
Definition readOnlyWallet : Wallet DemoTx :=
  {| GetAddressNonce := fun _ => (7, None);
     SignTx := demoSign;
     SetAddressNonce := fun _ _ => Some (errors_New "wallet is read only");
     Evaluate := fun _ seed => inr (seed + 1) |}.

Definition demoEnvWith (w : Wallet DemoTx) (default : Address) : SendEnv DemoTx :=
  {| FindWalletFromAddress := fun a =>
       if a =? fixtures.aliceAddr then inr w
       else inl (errors_New "wallet not found");
     ChainState := inr fixtures.testReader;
     Valid := fun _ => None;
     AddRemotes := fun txs => (fun _ => None) <$> txs;
     AddLocals := fun txs =>
       (fun tx => if dNonce tx =? 0 then Some (errors_New "nonce too low") else None)
         <$> txs;
     DefaultAccount := default;
     NewTransaction := fun n to value _ _ =>
       {| dNonce := n; dTo := to; dValue := value; dSigner := None |};
     CalTxId := fun tx => 1000 * dNonce tx + dTo tx |}.

Definition demoEnv : SendEnv DemoTx := demoEnvWith demoWallet fixtures.aliceAddr.

Definition demoElect : ElectEnv :=
  {| CurrentSeed := (41, 9);
     GetSlot := Some 3;
     NumBeforeLastBySlot := fun slot => Some (10 * slot);
     StateAtByBlockNumber := fun _ => inr fixtures.testReader;
     GetElectPriority := fun luck nonce _ _ => (luck + nonce, None) |}.

Definition demoConf : NodeConf :=
  {| SoftWalletName := "CSWallet"; SoftWalletDir := "/home/node/wallets" |}.

Definition demoState : test_info_test.fakeStateDB :=
  {| test_info_test.account := {[ fixtures.aliceAddr := 500%Z ]} |}.

End fixtures_tx.

(** * Facts about the stage *)

Import model middleware.

(** ** The iteration *)

Lemma lastCumulativeFrom_cons (g : uint64) (r : Receipt) (rs : Receipts) :
  lastCumulativeFrom g (r :: rs) = lastCumulativeFrom (CumulativeGasUsed r) rs.
Proof.
  unfold lastCumulativeFrom. rewrite last_cons. by destruct (last rs).
Qed.

(** With every receipt present the iteration appends them in the order of
    the transactions and leaves the counter of the last one. *)
Lemma TxIterator_from_collect (txs : list AbstractTransaction) :
  forall (i : nat) (rs : Receipts) (l : Locals),
    receiptsOf txs = Some rs ->
    TxIterator_from i txs receiptCallback l
    = inr {| l_receipts := l_receipts l ++ rs;
             accumulatedGas := lastCumulativeFrom (accumulatedGas l) rs |}.
Proof.
  unfold receiptsOf.
  induction txs as [|t txs IH]; intros i rs l Hrs; simpl in *.
  - injection Hrs as <-. rewrite app_nil_r. by destruct l.
  - unfold receiptCallback at 1.
    destruct (GetReceipt t) as [r|] eqn:Hr; simpl in Hrs; [|done].
    destruct (mapM GetReceipt txs) as [rs'|] eqn:Hrest; simpl in Hrs; [|done].
    injection Hrs as <-.
    rewrite (IH (S i) rs' _ eq_refl). simpl.
    by rewrite <- app_assoc, lastCumulativeFrom_cons.
Qed.

(** One missing receipt, wherever it stands, ends the iteration with
    [ErrEmptyReceipt]. *)
Lemma TxIterator_from_missing (txs : list AbstractTransaction) :
  forall (i : nat) (l : Locals),
    Exists (fun t => GetReceipt t = None) txs ->
    TxIterator_from i txs receiptCallback l = inl ErrEmptyReceipt.
Proof.
  induction txs as [|t txs IH]; intros i l Hex.
  - by apply Exists_nil in Hex.
  - simpl. unfold receiptCallback at 1.
    destruct (GetReceipt t) as [r|] eqn:Hr; [|done].
    apply Exists_cons in Hex as [Hex|Hex]; [congruence|].
    by apply IH.
Qed.

Lemma receiptsOf_None (txs : list AbstractTransaction) :
  receiptsOf txs = None <-> Exists (fun t => GetReceipt t = None) txs.
Proof. unfold receiptsOf. split; [apply mapM_None_1 | apply mapM_None_2]. Qed.

Section StageFacts.
Variable DeriveSha : Receipts -> Hash.
Variable Next : BlockContext -> option error * BlockContext.

Local Abbreviation run := (middleware.run DeriveSha Next).

Lemma run_special (c : BlockContext) :
  IsSpecial (Block c) = true ->
  run c = continued Next c [].
Proof.
  intros Hs. unfold middleware.run, ValidGasUsedAndReceipts, mbind, M_bind, getContext.
  simpl. by rewrite Hs.
Qed.

Lemma run_missing (c : BlockContext) :
  IsSpecial (Block c) = false ->
  Exists (fun t => GetReceipt t = None) (Txs (Block c)) ->
  run c = aborted ErrEmptyReceipt c [enterLine c].
Proof.
  intros Hs Hex. unfold middleware.run, ValidGasUsedAndReceipts, mbind, M_bind, getContext.
  simpl. rewrite Hs. unfold TxIterator.
  by rewrite (TxIterator_from_missing _ _ _ Hex).
Qed.

Lemma run_collected (c : BlockContext) (rs : Receipts) :
  IsSpecial (Block c) = false ->
  receiptsOf (Txs (Block c)) = Some rs ->
  run c =
    if negb (DeriveSha rs =? GetReceiptHash (Block c)) then
      aborted ReceiptHashError c
        [enterLine c; CallDeriveSha rs; hashLine (DeriveSha rs) c]
    else if negb (lastCumulative rs =? GetGasUsed (Header (Block c))) then
      aborted ErrGasUsedIsInvalid c
        [enterLine c; CallDeriveSha rs; gasLine (lastCumulative rs) c]
    else if GetGasLimit (Header (Block c)) <? lastCumulative rs then
      aborted ErrTxGasIsOverRanging c [enterLine c; CallDeriveSha rs]
    else
      continued Next (withReceipts c rs) [enterLine c; CallDeriveSha rs].
Proof.
  intros Hs Hrs. unfold middleware.run, ValidGasUsedAndReceipts, mbind, M_bind, getContext.
  simpl. rewrite Hs. unfold TxIterator.
  rewrite (TxIterator_from_collect _ _ _ _ Hrs). simpl.
  unfold lastCumulative.
  destruct (DeriveSha rs =? _); simpl; [|done].
  destruct (lastCumulativeFrom 0 rs =? _); simpl; [|done].
  by destruct (_ <? _).
Qed.

Lemma run_passes (c : BlockContext) (rs : Receipts) :
  IsSpecial (Block c) = false ->
  passes DeriveSha c rs ->
  run c = continued Next (withReceipts c rs) [enterLine c; CallDeriveSha rs].
Proof.
  intros Hs (Hrs & Hh & Hg & Hl). rewrite (run_collected c rs Hs Hrs).
  apply N.eqb_eq in Hh as ->. apply N.eqb_eq in Hg as ->.
  by apply N.ltb_ge in Hl as ->.
Qed.

End StageFacts.

(** ** Special blocks *)

(** C8. A special block skips everything: the stage logs nothing, collects
    no receipt, never calls [DeriveSha], compares nothing, and its whole
    effect is the call of the next stage on the untouched context, whose
    result it returns.  This holds whatever the block's transactions,
    receipts and header fields are. *)
Theorem C8_special_block_passes_through
    (DeriveSha : Receipts -> Hash)
    (Next : BlockContext -> option error * BlockContext) (c : BlockContext) :
  IsSpecial (Block c) = true ->
  run DeriveSha Next c = continued Next c [] /\
  trace (run DeriveSha Next c).2 = [CallNext c] /\
  ctx (run DeriveSha Next c).2 = (Next c).2 /\
  (run DeriveSha Next c).1
    = match (Next c).1 with Some e => inl e | None => inr tt end.
Proof.
  intros Hs. rewrite (run_special DeriveSha Next c Hs).
  unfold continued, callNext. simpl. by destruct (Next c) as [[e|] c'].
Qed.

Lemma C8_special_block_witness :
  let c := fixtures.context
             (fixtures.block (fixtures.header 999 0 12345)
                [fixtures.txSkipped; fixtures.txB] true) in
  run fixtures.toySha fixtures.nextOk c = continued fixtures.nextOk c [] /\
  trace (run fixtures.toySha fixtures.nextOk c).2 = [CallNext c] /\
  ctx (run fixtures.toySha fixtures.nextOk c).2 = (fixtures.nextOk c).2 /\
  (run fixtures.toySha fixtures.nextOk c).1
    = match (fixtures.nextOk c).1 with Some e => inl e | None => inr tt end.
Proof.
  intros c. apply (C8_special_block_passes_through fixtures.toySha fixtures.nextOk c).
  reflexivity.
Defined.

(** ** The four aborts, in the order the stage tries them *)

(** C3. In a non-special block one transaction without a receipt makes the
    stage return [ErrEmptyReceipt] with the context untouched.  The trace
    is the entry log line alone: [DeriveSha] was not called and no
    comparison was logged, and the outcome does not depend on the
    declared receipt hash, gas used or gas limit. *)
Theorem C3_missing_receipt_aborts_before_comparisons
    (DeriveSha : Receipts -> Hash)
    (Next : BlockContext -> option error * BlockContext) (c : BlockContext) :
  IsSpecial (Block c) = false ->
  Exists (fun t => GetReceipt t = None) (Txs (Block c)) ->
  run DeriveSha Next c = aborted ErrEmptyReceipt c [enterLine c].
Proof. apply run_missing. Qed.

Lemma C3_missing_receipt_witness :
  let c := fixtures.context
             (fixtures.block (fixtures.header 999 0 12345)
                [fixtures.txA; fixtures.txSkipped; fixtures.txB] false) in
  run fixtures.toySha fixtures.nextOk c = aborted ErrEmptyReceipt c [enterLine c].
Proof.
  intros c.
  apply (C3_missing_receipt_aborts_before_comparisons fixtures.toySha fixtures.nextOk c).
  - reflexivity.
  - apply Exists_cons_tl, Exists_cons_hd. reflexivity.
Defined.

(** C4. In a non-special block whose transactions all have receipts the
    stage calls [DeriveSha] on the receipts collected in transaction
    order and compares the result with the declared receipt hash; when
    they differ it returns [ReceiptHashError], context untouched.  No gas
    field is looked at before: the statement holds for every declared gas
    used and gas limit, and the trace ends with the hash log line. *)
Theorem C4_receipt_hash_mismatch_aborts
    (DeriveSha : Receipts -> Hash)
    (Next : BlockContext -> option error * BlockContext)
    (c : BlockContext) (rs : Receipts) :
  IsSpecial (Block c) = false ->
  receiptsOf (Txs (Block c)) = Some rs ->
  DeriveSha rs <> GetReceiptHash (Block c) ->
  run DeriveSha Next c
  = aborted ReceiptHashError c
      [enterLine c; CallDeriveSha rs; hashLine (DeriveSha rs) c].
Proof.
  intros Hs Hrs Hne. rewrite (run_collected DeriveSha Next c rs Hs Hrs).
  by apply N.eqb_neq in Hne as ->.
Qed.

Lemma C4_receipt_hash_mismatch_witness :
  let c := fixtures.context
             (fixtures.block (fixtures.header 999 0 12345)
                [fixtures.txA; fixtures.txB] false) in
  let rs := [fixtures.rcpt 100 100; fixtures.rcpt 250 150] in
  run fixtures.toySha fixtures.nextOk c
  = aborted ReceiptHashError c
      [enterLine c; CallDeriveSha rs; hashLine (fixtures.toySha rs) c].
Proof.
  intros c rs.
  apply (C4_receipt_hash_mismatch_aborts fixtures.toySha fixtures.nextOk c rs).
  - reflexivity.
  - reflexivity.
  - vm_compute. discriminate.
Defined.

(** C5. In a non-special block that passed the receipt hash comparison, an
    accumulated gas (the last receipt's cumulative counter, 0 without
    transactions) different from the header's gas used makes the stage
    return [ErrGasUsedIsInvalid], context untouched, whatever the gas
    limit is. *)
Theorem C5_gas_used_mismatch_aborts
    (DeriveSha : Receipts -> Hash)
    (Next : BlockContext -> option error * BlockContext)
    (c : BlockContext) (rs : Receipts) :
  IsSpecial (Block c) = false ->
  receiptsOf (Txs (Block c)) = Some rs ->
  DeriveSha rs = GetReceiptHash (Block c) ->
  lastCumulative rs <> GetGasUsed (Header (Block c)) ->
  run DeriveSha Next c
  = aborted ErrGasUsedIsInvalid c
      [enterLine c; CallDeriveSha rs; gasLine (lastCumulative rs) c].
Proof.
  intros Hs Hrs Heq Hne. rewrite (run_collected DeriveSha Next c rs Hs Hrs).
  apply N.eqb_eq in Heq as ->. by apply N.eqb_neq in Hne as ->.
Qed.

Lemma C5_gas_used_mismatch_witness :
  let c := fixtures.context
             (fixtures.block (fixtures.header 200 100 fixtures.goodRoot)
                [fixtures.txA; fixtures.txB] false) in
  let rs := [fixtures.rcpt 100 100; fixtures.rcpt 250 150] in
  run fixtures.toySha fixtures.nextOk c
  = aborted ErrGasUsedIsInvalid c
      [enterLine c; CallDeriveSha rs; gasLine (lastCumulative rs) c].
Proof.
  intros c rs.
  apply (C5_gas_used_mismatch_aborts fixtures.toySha fixtures.nextOk c rs).
  - reflexivity.
  - reflexivity.
  - reflexivity.
  - vm_compute. discriminate.
Defined.

(** C6. In a non-special block that passed the receipt hash and gas used
    comparisons, an accumulated gas above the header's gas limit makes the
    stage return [ErrTxGasIsOverRanging], context untouched; otherwise the
    checks are over: the receipts are stored and the next stage is
    called. *)
Theorem C6_gas_limit_check
    (DeriveSha : Receipts -> Hash)
    (Next : BlockContext -> option error * BlockContext)
    (c : BlockContext) (rs : Receipts) :
  IsSpecial (Block c) = false ->
  receiptsOf (Txs (Block c)) = Some rs ->
  DeriveSha rs = GetReceiptHash (Block c) ->
  lastCumulative rs = GetGasUsed (Header (Block c)) ->
  (GetGasLimit (Header (Block c)) < lastCumulative rs ->
   run DeriveSha Next c
   = aborted ErrTxGasIsOverRanging c [enterLine c; CallDeriveSha rs]) /\
  (lastCumulative rs <= GetGasLimit (Header (Block c)) ->
   run DeriveSha Next c
   = continued Next (withReceipts c rs) [enterLine c; CallDeriveSha rs]).
Proof.
  intros Hs Hrs Heq Hgas. rewrite (run_collected DeriveSha Next c rs Hs Hrs).
  apply N.eqb_eq in Heq as ->. apply N.eqb_eq in Hgas as ->. simpl.
  split; intros Hlim.
  - by apply N.ltb_lt in Hlim as ->.
  - by apply N.ltb_ge in Hlim as ->.
Qed.

Lemma C6_gas_limit_witness :
  let c := fixtures.context
             (fixtures.block (fixtures.header 250 249 fixtures.goodRoot)
                [fixtures.txA; fixtures.txB] false) in
  let rs := [fixtures.rcpt 100 100; fixtures.rcpt 250 150] in
  (249 < lastCumulative rs ->
   run fixtures.toySha fixtures.nextOk c
   = aborted ErrTxGasIsOverRanging c [enterLine c; CallDeriveSha rs]) /\
  (lastCumulative rs <= 249 ->
   run fixtures.toySha fixtures.nextOk c
   = continued fixtures.nextOk (withReceipts c rs) [enterLine c; CallDeriveSha rs]).
Proof.
  intros c rs.
  apply (C6_gas_limit_check fixtures.toySha fixtures.nextOk c rs); reflexivity.
Defined.

(** ** Blocks without transactions *)

Lemma continued_calls_next
    (Next : BlockContext -> option error * BlockContext)
    (c : BlockContext) (t : list Event) :
  In (CallNext c) (trace (continued Next c t).2).
Proof.
  unfold continued, callNext. simpl. destruct (Next c) as [e c']. simpl.
  apply in_or_app. right. by left.
Qed.

(** C10. A non-special block without transactions leaves the iteration
    with no receipt and an accumulated gas of 0.  The stage then hands
    over to the next stage exactly when the declared receipt hash is the
    derived root of the empty receipt list and the declared gas used is 0,
    whatever the gas limit is; a wrong hash gives [ReceiptHashError], a
    right hash with a gas used other than 0 gives [ErrGasUsedIsInvalid]. *)
Theorem C10_block_without_transactions
    (DeriveSha : Receipts -> Hash)
    (Next : BlockContext -> option error * BlockContext) (c : BlockContext) :
  IsSpecial (Block c) = false ->
  Txs (Block c) = [] ->
  TxIterator (Block c) receiptCallback initialLocals
    = inr {| l_receipts := []; accumulatedGas := 0 |} /\
  (DeriveSha [] <> GetReceiptHash (Block c) ->
   run DeriveSha Next c
   = aborted ReceiptHashError c
       [enterLine c; CallDeriveSha []; hashLine (DeriveSha []) c]) /\
  (DeriveSha [] = GetReceiptHash (Block c) ->
   GetGasUsed (Header (Block c)) <> 0 ->
   run DeriveSha Next c
   = aborted ErrGasUsedIsInvalid c [enterLine c; CallDeriveSha []; gasLine 0 c]) /\
  (DeriveSha [] = GetReceiptHash (Block c) ->
   GetGasUsed (Header (Block c)) = 0 ->
   run DeriveSha Next c
   = continued Next (withReceipts c []) [enterLine c; CallDeriveSha []]) /\
  ((exists c', In (CallNext c') (trace (run DeriveSha Next c).2)) <->
   DeriveSha [] = GetReceiptHash (Block c) /\ GetGasUsed (Header (Block c)) = 0).
Proof.
  intros Hs Htxs.
  assert (Hrs : receiptsOf (Txs (Block c)) = Some []) by (rewrite Htxs; reflexivity).
  pose proof (run_collected DeriveSha Next c [] Hs Hrs) as Hrun.
  change (lastCumulative []) with 0 in Hrun.
  split; [unfold TxIterator; rewrite Htxs; reflexivity|].
  assert (Hno : forall e t, run DeriveSha Next c = aborted e c t ->
            nextNotCalled t ->
            ~ (exists c', In (CallNext c') (trace (run DeriveSha Next c).2))).
  { intros e t -> Ht [c' Hin]. by apply (Ht c'). }
  destruct (N.eqb_spec (DeriveSha []) (GetReceiptHash (Block c))) as [Hh|Hh];
    cbn [negb] in Hrun.
  - destruct (N.eqb_spec 0 (GetGasUsed (Header (Block c)))) as [Hg|Hg];
      cbn [negb] in Hrun.
    + assert (Hlim : (GetGasLimit (Header (Block c)) <? 0) = false)
        by (apply N.ltb_ge; lia).
      rewrite Hlim in Hrun.
      split; [intros Hne; contradiction|].
      split; [intros _ Hne; congruence|].
      split; [intros _ _; exact Hrun|].
      split; [intros _; split; congruence|].
      intros _. rewrite Hrun. eexists. apply continued_calls_next.
    + split; [intros Hne; contradiction|].
      split; [intros _ _; exact Hrun|].
      split; [intros _ Hz; congruence|].
      split; [|intros [_ Hz]; congruence].
      intros Hex. exfalso. revert Hex. eapply Hno; [exact Hrun|].
      intros c' [?|[?|[?|[]]]]; discriminate.
  - split; [intros _; exact Hrun|].
    split; [intros He; contradiction|].
    split; [intros He; contradiction|].
    split; [|intros [He _]; contradiction].
    intros Hex. exfalso. revert Hex. eapply Hno; [exact Hrun|].
    intros c' [?|[?|[?|[]]]]; discriminate.
Qed.

Lemma C10_block_without_transactions_witness :
  let c := fixtures.context
             (fixtures.block (fixtures.header 0 0 (fixtures.toySha [])) [] false) in
  TxIterator (Block c) receiptCallback initialLocals
    = inr {| l_receipts := []; accumulatedGas := 0 |} /\
  (fixtures.toySha [] <> GetReceiptHash (Block c) ->
   run fixtures.toySha fixtures.nextOk c
   = aborted ReceiptHashError c
       [enterLine c; CallDeriveSha []; hashLine (fixtures.toySha []) c]) /\
  (fixtures.toySha [] = GetReceiptHash (Block c) ->
   GetGasUsed (Header (Block c)) <> 0 ->
   run fixtures.toySha fixtures.nextOk c
   = aborted ErrGasUsedIsInvalid c [enterLine c; CallDeriveSha []; gasLine 0 c]) /\
  (fixtures.toySha [] = GetReceiptHash (Block c) ->
   GetGasUsed (Header (Block c)) = 0 ->
   run fixtures.toySha fixtures.nextOk c
   = continued fixtures.nextOk (withReceipts c []) [enterLine c; CallDeriveSha []]) /\
  ((exists c', In (CallNext c') (trace (run fixtures.toySha fixtures.nextOk c).2)) <->
   fixtures.toySha [] = GetReceiptHash (Block c) /\ GetGasUsed (Header (Block c)) = 0).
Proof.
  intros c.
  apply (C10_block_without_transactions fixtures.toySha fixtures.nextOk c); reflexivity.
Defined.

(** ** Store and continue, or abort untouched *)

Lemma passes_receipts_unique (DeriveSha : Receipts -> Hash)
    (c : BlockContext) (rs rs' : Receipts) :
  receiptsOf (Txs (Block c)) = Some rs -> passes DeriveSha c rs' -> rs' = rs.
Proof. intros Hrs [Hrs' _]. congruence. Qed.

(** C2. The stage has three outcomes and no other.  On a special block it
    makes no check and calls the next stage on the untouched context (C8).
    On any other block, either every check passes: then, and only then,
    the recomputed receipts are stored in the context and the next stage
    is called on it.  Or some check fails: then the stage returns one of
    its four errors, the context (its receipts field included) is the one
    it was entered with, and the trace holds no call of the next stage. *)
Theorem C2_store_and_continue_or_abort_untouched
    (DeriveSha : Receipts -> Hash)
    (Next : BlockContext -> option error * BlockContext) (c : BlockContext) :
  (IsSpecial (Block c) = true /\ run DeriveSha Next c = continued Next c [])
  \/
  (IsSpecial (Block c) = false /\
   exists rs, passes DeriveSha c rs /\
     run DeriveSha Next c
     = continued Next (withReceipts c rs) [enterLine c; CallDeriveSha rs])
  \/
  (IsSpecial (Block c) = false /\
   (forall rs, ~ passes DeriveSha c rs) /\
   exists e t, In e ownErrors /\
     run DeriveSha Next c = aborted e c t /\ nextNotCalled t).
Proof.
  destruct (IsSpecial (Block c)) eqn:Hs.
  { left. split; [done|]. by apply run_special. }
  right.
  destruct (receiptsOf (Txs (Block c))) as [rs|] eqn:Hrs.
  - pose proof (run_collected DeriveSha Next c rs Hs Hrs) as Hrun.
    destruct (N.eqb_spec (DeriveSha rs) (GetReceiptHash (Block c))) as [Hh|Hh];
      cbn [negb] in Hrun.
    + destruct (N.eqb_spec (lastCumulative rs) (GetGasUsed (Header (Block c))))
        as [Hg|Hg]; cbn [negb] in Hrun.
      * destruct (N.ltb_spec (GetGasLimit (Header (Block c))) (lastCumulative rs))
          as [Hl|Hl].
        -- right. split; [done|]. split.
           ++ intros rs' Hp.
              rewrite (passes_receipts_unique _ _ _ _ Hrs Hp) in Hp.
              destruct Hp as (_ & _ & _ & Hle). lia.
           ++ exists ErrTxGasIsOverRanging, [enterLine c; CallDeriveSha rs].
              split; [unfold ownErrors; simpl; tauto|]. split; [done|].
              intros c' [?|[?|[]]]; discriminate.
        -- left. split; [done|]. exists rs. by repeat split.
      * right. split; [done|]. split.
        -- intros rs' Hp.
           rewrite (passes_receipts_unique _ _ _ _ Hrs Hp) in Hp.
           by destruct Hp as (_ & _ & Hg' & _).
        -- exists ErrGasUsedIsInvalid,
             [enterLine c; CallDeriveSha rs; gasLine (lastCumulative rs) c].
           split; [unfold ownErrors; simpl; tauto|]. split; [done|].
           intros c' [?|[?|[?|[]]]]; discriminate.
    + right. split; [done|]. split.
      * intros rs' Hp.
        rewrite (passes_receipts_unique _ _ _ _ Hrs Hp) in Hp.
        by destruct Hp as (_ & Hh' & _).
      * exists ReceiptHashError,
          [enterLine c; CallDeriveSha rs; hashLine (DeriveSha rs) c].
        split; [unfold ownErrors; simpl; tauto|]. split; [done|].
        intros c' [?|[?|[?|[]]]]; discriminate.
  - right. split; [done|]. split.
    + intros rs' [Hrs' _]. congruence.
    + exists ErrEmptyReceipt, [enterLine c].
      split; [unfold ownErrors; simpl; tauto|].
      split; [by apply run_missing, receiptsOf_None|].
      intros c' [?|[]]; discriminate.
Qed.

(** The spec's scenario: the header claims a gas used of 500, the receipts
    come to 600. *)
Lemma C2_abort_untouched_witness :
  let rs := [fixtures.rcpt 400 400; fixtures.rcpt 600 200] in
  let c := fixtures.context
             (fixtures.block (fixtures.header 500 1000 (fixtures.toySha rs))
                [fixtures.tx 1 (Some (fixtures.rcpt 400 400));
                 fixtures.tx 2 (Some (fixtures.rcpt 600 200))] false) in
  (IsSpecial (Block c) = true /\
   run fixtures.toySha fixtures.nextOk c = continued fixtures.nextOk c [])
  \/
  (IsSpecial (Block c) = false /\
   exists rs, passes fixtures.toySha c rs /\
     run fixtures.toySha fixtures.nextOk c
     = continued fixtures.nextOk (withReceipts c rs) [enterLine c; CallDeriveSha rs])
  \/
  (IsSpecial (Block c) = false /\
   (forall rs, ~ passes fixtures.toySha c rs) /\
   exists e t, In e ownErrors /\
     run fixtures.toySha fixtures.nextOk c = aborted e c t /\ nextNotCalled t).
Proof.
  intros rs c.
  exact (C2_store_and_continue_or_abort_untouched fixtures.toySha fixtures.nextOk c).
Defined.

(** The same scenario evaluated: gas-used-invalid, nothing stored. *)
Example scenario_gas_500_against_600 :
  let rs := [fixtures.rcpt 400 400; fixtures.rcpt 600 200] in
  let c := fixtures.context
             (fixtures.block (fixtures.header 500 1000 (fixtures.toySha rs))
                [fixtures.tx 1 (Some (fixtures.rcpt 400 400));
                 fixtures.tx 2 (Some (fixtures.rcpt 600 200))] false) in
  run fixtures.toySha fixtures.nextOk c
  = aborted ErrGasUsedIsInvalid c [enterLine c; CallDeriveSha rs; gasLine 600 c]
  /\ receipts (ctx (run fixtures.toySha fixtures.nextOk c).2) = [].
Proof. split; reflexivity. Qed.

(** A later stage that fails after this one passed: its error is returned,
    the receipts are stored all the same. *)
Example scenario_later_stage_fails :
  let rs := [fixtures.rcpt 100 100; fixtures.rcpt 250 150] in
  let c := fixtures.context fixtures.goodBlock in
  run fixtures.toySha fixtures.nextFail c
  = (inl (OtherError "later stage failed"),
     {| ctx := withReceipts c rs;
        trace := [enterLine c; CallDeriveSha rs; CallNext (withReceipts c rs)] |}).
Proof. reflexivity. Qed.

(** And a block that passes: receipts stored, next stage entered with them. *)
Example scenario_good_block :
  let rs := [fixtures.rcpt 100 100; fixtures.rcpt 250 150] in
  let c := fixtures.context fixtures.goodBlock in
  run fixtures.toySha fixtures.nextOk c
  = (inr tt, {| ctx := withReceipts c rs;
                trace := [enterLine c; CallDeriveSha rs; CallNext (withReceipts c rs)] |}).
Proof. reflexivity. Qed.

(** X1. When every check passes and a later stage fails, the stage returns
    that stage's error and the context is the one the later stages leave:
    the stage undoes nothing after [c.Next()] comes back. *)
Theorem X1_later_stage_error_is_returned
    (DeriveSha : Receipts -> Hash)
    (Next : BlockContext -> option error * BlockContext)
    (c c1 : BlockContext) (rs : Receipts) (e : error) :
  IsSpecial (Block c) = false ->
  passes DeriveSha c rs ->
  Next (withReceipts c rs) = (Some e, c1) ->
  run DeriveSha Next c
  = (inl e,
     {| ctx := c1;
        trace := [enterLine c; CallDeriveSha rs; CallNext (withReceipts c rs)] |}).
Proof.
  intros Hs Hp Hn. rewrite (run_passes DeriveSha Next c rs Hs Hp).
  unfold continued, callNext. simpl. by rewrite Hn.
Qed.

Lemma X1_later_stage_error_witness :
  let rs := [fixtures.rcpt 100 100; fixtures.rcpt 250 150] in
  let c := fixtures.context fixtures.goodBlock in
  run fixtures.toySha fixtures.nextFail c
  = (inl (OtherError "later stage failed"),
     {| ctx := withReceipts c rs;
        trace := [enterLine c; CallDeriveSha rs; CallNext (withReceipts c rs)] |}).
Proof.
  intros rs c.
  apply (X1_later_stage_error_is_returned fixtures.toySha fixtures.nextFail
           c (withReceipts c rs) rs (OtherError "later stage failed")).
  - reflexivity.
  - split; [reflexivity|]. split; [reflexivity|]. split; [reflexivity|].
    vm_compute. discriminate.
  - reflexivity.
Defined.

(** ** Accumulated gas *)

Lemma cumulativeFrom_sum (rs : Receipts) :
  forall prev : uint64,
    cumulativeFrom prev rs = true ->
    lastCumulativeFrom prev rs = prev + sumGasUsed rs.
Proof.
  induction rs as [|r rs IH]; intros prev Hc; simpl in *.
  - unfold lastCumulativeFrom. simpl. lia.
  - apply andb_true_iff in Hc as [Hr Hrest]. apply N.eqb_eq in Hr.
    rewrite lastCumulativeFrom_cons, (IH _ Hrest). lia.
Qed.

(** C1, as the code has it.  When every transaction of the block carries a
    receipt, the iteration of the stage ends with the receipts in
    transaction order and with [accumulatedGas] equal to the
    [CumulativeGasUsed] of the last receipt (0 when the block has no
    transaction): each step overwrites the variable with the counter of
    the receipt at hand.  That value is the sum of the transactions' own
    gas used when the receipts are cumulative by construction, which the
    stage does not check. *)
Theorem C1_accumulated_gas_is_last_cumulative
    (b : AbstractBlock) (rs : Receipts) :
  receiptsOf (Txs b) = Some rs ->
  TxIterator b receiptCallback initialLocals
    = inr {| l_receipts := rs; accumulatedGas := lastCumulative rs |} /\
  (forall r, last rs = Some r -> lastCumulative rs = CumulativeGasUsed r) /\
  (rs = [] -> lastCumulative rs = 0) /\
  (cumulativeFrom 0 rs = true -> lastCumulative rs = sumGasUsed rs).
Proof.
  intros Hrs. split; [|split; [|split]].
  - unfold TxIterator. by rewrite (TxIterator_from_collect _ 0 rs initialLocals Hrs).
  - intros r Hr. unfold lastCumulative, lastCumulativeFrom. by rewrite Hr.
  - by intros ->.
  - intros Hc. unfold lastCumulative. by rewrite (cumulativeFrom_sum rs 0 Hc).
Qed.

Lemma C1_accumulated_gas_witness :
  let rs := [fixtures.rcpt 100 100; fixtures.rcpt 250 150] in
  TxIterator fixtures.goodBlock receiptCallback initialLocals
    = inr {| l_receipts := rs; accumulatedGas := lastCumulative rs |} /\
  (forall r, last rs = Some r -> lastCumulative rs = CumulativeGasUsed r) /\
  (rs = [] -> lastCumulative rs = 0) /\
  (cumulativeFrom 0 rs = true -> lastCumulative rs = sumGasUsed rs).
Proof.
  intros rs.
  apply (C1_accumulated_gas_is_last_cumulative fixtures.goodBlock rs).
  reflexivity.
Defined.

(** C1 as the specification words it fails: the stage accepts a block whose two
    transactions consumed 100 and 50 units of gas with an accumulated gas
    of 50, the counter of the last receipt. *)
Lemma C1_sum_of_gas_used_counterexample :
  let c := fixtures.context fixtures.skewedBlock in
  IsSpecial (Block c) = false /\
  TxIterator (Block c) receiptCallback initialLocals
    = inr {| l_receipts := fixtures.skewedReceipts; accumulatedGas := 50 |} /\
  sumGasUsed fixtures.skewedReceipts = 150 /\
  50 <> sumGasUsed fixtures.skewedReceipts /\
  passes fixtures.toySha c fixtures.skewedReceipts /\
  run fixtures.toySha fixtures.nextOk c
  = (inr tt,
     {| ctx := withReceipts c fixtures.skewedReceipts;
        trace := [enterLine c; CallDeriveSha fixtures.skewedReceipts;
                  CallNext (withReceipts c fixtures.skewedReceipts)] |}).
Proof.
  intros c. split; [reflexivity|]. split; [reflexivity|]. split; [reflexivity|].
  split; [vm_compute; discriminate|]. split; [|reflexivity].
  repeat split; vm_compute; discriminate.
Qed.

(** ** Transaction order *)

Lemma receiptsOf_cons (t : AbstractTransaction) (txs : list AbstractTransaction)
    (rs : Receipts) :
  receiptsOf (t :: txs) = Some rs <->
  exists r rs0, GetReceipt t = Some r /\ receiptsOf txs = Some rs0 /\ rs = r :: rs0.
Proof.
  unfold receiptsOf. simpl. split.
  - destruct (GetReceipt t) as [r|]; simpl; [|done].
    destruct (mapM GetReceipt txs) as [rs0|]; simpl; [|done].
    intros [= <-]. by exists r, rs0.
  - intros (r & rs0 & -> & -> & ->). done.
Qed.

(** The [i]-th collected receipt is the receipt of the [i]-th transaction. *)
Lemma receiptsOf_lookup (txs : list AbstractTransaction) :
  forall (rs : Receipts) (i : nat),
    receiptsOf txs = Some rs -> rs !! i = txs !! i ≫= GetReceipt.
Proof.
  induction txs as [|t txs IH]; intros rs i Hrs.
  - injection Hrs as <-. done.
  - apply receiptsOf_cons in Hrs as (r & rs0 & Hr & Hrs0 & ->).
    destruct i as [|i]; simpl; [done|]. by apply IH.
Qed.

(** Reordered transactions bring the same receipts, reordered. *)
Lemma receiptsOf_Permutation (txs txs' : list AbstractTransaction) :
  txs ≡ₚ txs' ->
  forall rs, receiptsOf txs = Some rs ->
    exists rs', receiptsOf txs' = Some rs' /\ rs ≡ₚ rs'.
Proof.
  induction 1 as [|t l l' Hp IH|t1 t2 l|l1 l2 l3 H12 IH12 H23 IH23]; intros rs Hrs.
  - by exists rs.
  - apply receiptsOf_cons in Hrs as (r & rs0 & Hr & Hrs0 & ->).
    destruct (IH _ Hrs0) as (rs0' & Hrs0' & Hperm).
    exists (r :: rs0'). split; [|by constructor].
    apply receiptsOf_cons. by exists r, rs0'.
  - apply receiptsOf_cons in Hrs as (r2 & rs1 & Hr2 & Hrs1 & ->).
    apply receiptsOf_cons in Hrs1 as (r1 & rs0 & Hr1 & Hrs0 & ->).
    exists (r1 :: r2 :: rs0). split; [|by constructor].
    apply receiptsOf_cons. exists r1, (r2 :: rs0). repeat split; [done|].
    apply receiptsOf_cons. by exists r2, rs0.
  - destruct (IH12 _ Hrs) as (rs2 & Hrs2 & Hp12).
    destruct (IH23 _ Hrs2) as (rs3 & Hrs3 & Hp23).
    exists rs3. split; [done|]. by etrans.
Qed.

(** Reordering under the same header.  The stage collects the receipts in
    the order of the block body: the [i]-th receipt it hands to [DeriveSha]
    and stores is the receipt of the [i]-th transaction.  A reordering of
    an accepted block brings the same receipts in the new order; what the
    stage makes of it is decided by the derived root of that sequence and,
    when the root is the same, by the counter of its last receipt. *)
Lemma reordered_block_outcome
    (DeriveSha : Receipts -> Hash)
    (Next : BlockContext -> option error * BlockContext)
    (c c' : BlockContext) (rs : Receipts) :
  IsSpecial (Block c) = false ->
  IsSpecial (Block c') = false ->
  Header (Block c') = Header (Block c) ->
  Txs (Block c) ≡ₚ Txs (Block c') ->
  passes DeriveSha c rs ->
  (forall i, rs !! i = Txs (Block c) !! i ≫= GetReceipt) /\
  run DeriveSha Next c
    = continued Next (withReceipts c rs) [enterLine c; CallDeriveSha rs] /\
  exists rs',
    receiptsOf (Txs (Block c')) = Some rs' /\ rs ≡ₚ rs' /\
    (forall i, rs' !! i = Txs (Block c') !! i ≫= GetReceipt) /\
    (DeriveSha rs' <> DeriveSha rs ->
     run DeriveSha Next c'
     = aborted ReceiptHashError c'
         [enterLine c'; CallDeriveSha rs'; hashLine (DeriveSha rs') c']) /\
    (DeriveSha rs' = DeriveSha rs ->
     lastCumulative rs' <> lastCumulative rs ->
     run DeriveSha Next c'
     = aborted ErrGasUsedIsInvalid c'
         [enterLine c'; CallDeriveSha rs'; gasLine (lastCumulative rs') c']) /\
    (DeriveSha rs' = DeriveSha rs ->
     lastCumulative rs' = lastCumulative rs ->
     run DeriveSha Next c'
     = continued Next (withReceipts c' rs') [enterLine c'; CallDeriveSha rs']).
Proof.
  intros Hs Hs' Hhdr Hperm (Hrs & Hh & Hg & Hl).
  split; [intros i; by apply receiptsOf_lookup|].
  split.
  { by apply run_passes. }
  destruct (receiptsOf_Permutation _ _ Hperm rs Hrs) as (rs' & Hrs' & Hp).
  exists rs'. split; [done|]. split; [done|].
  split; [intros i; by apply receiptsOf_lookup|].
  pose proof (run_collected DeriveSha Next c' rs' Hs' Hrs') as Hrun.
  unfold GetReceiptHash in *. rewrite Hhdr, <- Hh, <- Hg in Hrun.
  split; [|split].
  - intros Hne. by apply N.eqb_neq in Hne as Hb; rewrite Hb in Hrun.
  - intros Heq Hne. apply N.eqb_eq in Heq. apply N.eqb_neq in Hne.
    by rewrite Heq, Hne in Hrun.
  - intros Heq Heg. rewrite Heq, Heg, !N.eqb_refl in Hrun. cbn [negb] in Hrun.
    apply N.ltb_ge in Hl. by rewrite Hl in Hrun.
Qed.

(** X21. When the derived root tells the reordered receipt sequence from
    the original one, the stage is exactly as sensitive to the order of
    the transactions as their receipts are.  Reorder the transactions of
    an accepted block under the same header: every transaction still
    brings its receipt, the [i]-th receipt collected is that of the
    [i]-th transaction of the new order, and the stage returns
    [ReceiptHashError] as soon as the receipt sequence differs from the
    original one; it accepts the reordered block when the sequence is the
    same. *)
Theorem X21_reordering_rejected_under_separating_root
    (DeriveSha : Receipts -> Hash)
    (Next : BlockContext -> option error * BlockContext)
    (c c' : BlockContext) (rs : Receipts) :
  IsSpecial (Block c) = false ->
  IsSpecial (Block c') = false ->
  Header (Block c') = Header (Block c) ->
  Txs (Block c) ≡ₚ Txs (Block c') ->
  passes DeriveSha c rs ->
  (forall rs', receiptsOf (Txs (Block c')) = Some rs' ->
     DeriveSha rs' = DeriveSha rs -> rs' = rs) ->
  exists rs',
    receiptsOf (Txs (Block c')) = Some rs' /\ rs ≡ₚ rs' /\
    (forall i, rs' !! i = Txs (Block c') !! i ≫= GetReceipt) /\
    (rs' <> rs ->
     run DeriveSha Next c'
     = aborted ReceiptHashError c'
         [enterLine c'; CallDeriveSha rs'; hashLine (DeriveSha rs') c']) /\
    (rs' = rs ->
     run DeriveSha Next c'
     = continued Next (withReceipts c' rs) [enterLine c'; CallDeriveSha rs]).
Proof.
  intros Hs Hs' Hhdr Hperm Hp Hsep.
  destruct (reordered_block_outcome DeriveSha Next c c' rs Hs Hs' Hhdr Hperm Hp)
    as (_ & _ & rs' & Hrs' & Hperm' & Hlook & Hroot & _ & Hsame).
  exists rs'. split; [done|]. split; [done|]. split; [done|]. split.
  - intros Hne. apply Hroot. intros Heq. apply Hne. by apply Hsep.
  - intros ->. by apply Hsame.
Qed.

Lemma X21_reordering_rejected_witness :
  let rs := [fixtures.rcpt 100 100; fixtures.rcpt 250 150] in
  let c' := fixtures.context
              (fixtures.block (fixtures.header 250 1000 fixtures.goodRoot)
                 [fixtures.txB; fixtures.txA] false) in
  exists rs',
    receiptsOf (Txs (Block c')) = Some rs' /\ rs ≡ₚ rs' /\
    (forall i, rs' !! i = Txs (Block c') !! i ≫= GetReceipt) /\
    (rs' <> rs ->
     run fixtures.toySha fixtures.nextOk c'
     = aborted ReceiptHashError c'
         [enterLine c'; CallDeriveSha rs'; hashLine (fixtures.toySha rs') c']) /\
    (rs' = rs ->
     run fixtures.toySha fixtures.nextOk c'
     = continued fixtures.nextOk (withReceipts c' rs) [enterLine c'; CallDeriveSha rs]).
Proof.
  intros rs c'.
  apply (X21_reordering_rejected_under_separating_root
           fixtures.toySha fixtures.nextOk
           (fixtures.context fixtures.goodBlock) c' rs).
  - reflexivity.
  - reflexivity.
  - reflexivity.
  - apply perm_swap.
  - split; [reflexivity|]. split; [reflexivity|]. split; [reflexivity|].
    vm_compute. discriminate.
  - intros rs' [= <-]. vm_compute. discriminate.
Defined.

(** The reordered good block evaluated: the receipts come in the new order
    and the derived root no longer matches. *)
Example scenario_reordered_good_block :
  let rs' := [fixtures.rcpt 250 150; fixtures.rcpt 100 100] in
  let c' := fixtures.context
              (fixtures.block (fixtures.header 250 1000 fixtures.goodRoot)
                 [fixtures.txB; fixtures.txA] false) in
  run fixtures.toySha fixtures.nextOk c'
  = aborted ReceiptHashError c'
      [enterLine c'; CallDeriveSha rs'; hashLine (fixtures.toySha rs') c'].
Proof. reflexivity. Qed.

(** C7.  The comment at insert_receipts.go:35 says that any change in the
    order of the transactions makes the gas usage come out wrong and so
    is reported as an error.  Here two different transactions with equal
    receipts change places under the same header, and the stage accepts
    the reordered block as it accepts the original one: it stores the
    same receipts and calls the next stage. *)
Lemma C7_reordered_twins_are_accepted :
  let c := fixtures.context fixtures.twinBlock in
  let c' := fixtures.context fixtures.twinBlockSwapped in
  Txs (Block c') <> Txs (Block c) /\
  Txs (Block c) ≡ₚ Txs (Block c') /\
  Header (Block c') = Header (Block c) /\
  IsSpecial (Block c) = false /\ IsSpecial (Block c') = false /\
  run fixtures.toySha fixtures.nextOk c
  = (inr tt,
     {| ctx := withReceipts c fixtures.twinReceipts;
        trace := [enterLine c; CallDeriveSha fixtures.twinReceipts;
                  CallNext (withReceipts c fixtures.twinReceipts)] |}) /\
  run fixtures.toySha fixtures.nextOk c'
  = (inr tt,
     {| ctx := withReceipts c' fixtures.twinReceipts;
        trace := [enterLine c'; CallDeriveSha fixtures.twinReceipts;
                  CallNext (withReceipts c' fixtures.twinReceipts)] |}).
Proof.
  intros c c'. split; [discriminate|].
  split; [apply perm_skip, perm_swap|].
  repeat split; reflexivity.
Qed.

(** * Facts about the account readers *)

Import state_processor.

Lemma NewAccountState_lookup_ne (db : AccountStateDB) (a addr : Address) :
  a <> addr ->
  accounts (NewAccountState db a) !! addr = accounts db !! addr.
Proof.
  intros Hne. unfold NewAccountState.
  destruct (accounts db !! a); [done|]. simpl. by rewrite lookup_insert_ne.
Qed.

Lemma NewAccountState_lookup_eq (db : AccountStateDB) (a : Address) :
  is_Some (accounts (NewAccountState db a) !! a).
Proof.
  unfold NewAccountState. destruct (accounts db !! a) eqn:Ha; simpl.
  - by rewrite Ha.
  - by rewrite lookup_insert_eq.
Qed.

(** An address outside [created] has no account after creating those of
    [created], whatever the database started from held for others. *)
Lemma foldl_NewAccountState_absent (created : list Address) (addr : Address) :
  addr ∉ created ->
  forall db, accounts db !! addr = None ->
    accounts (foldl NewAccountState db created) !! addr = None.
Proof.
  induction created as [|a created IH]; intros Hnot db Hdb; simpl; [done|].
  apply not_elem_of_cons in Hnot as [Hne Hnot].
  apply IH; [done|]. rewrite NewAccountState_lookup_ne; [done|congruence].
Qed.

Lemma createdFrom_absent (created : list Address) (addr : Address) :
  addr ∉ created -> accounts (createdFrom created) !! addr = None.
Proof. intros Hnot. by apply foldl_NewAccountState_absent. Qed.

Lemma readAccount_absent {A : Type} (field : Account -> A)
    (db : AccountStateDB) (addr : Address) :
  accounts db !! addr = None -> readAccount field db addr = inl AccountNotExist.
Proof. intros H. unfold readAccount. by rewrite H. Qed.

Lemma returnedError_AccountNotExist_stake :
  service.returnedError service.returnsOnStakeError (Some AccountNotExist) = None.
Proof. reflexivity. Qed.

Lemma returnedError_AccountNotExist :
  service.returnedError service.returnsOnError (Some AccountNotExist) = None.
Proof. reflexivity. Qed.

Lemma returnsOnError_other (e : error) :
  Error e <> "account does not exist"%string -> service.returnsOnError e = true.
Proof.
  intros Hne. unfold service.returnsOnError, service.isText.
  by apply String.eqb_neq in Hne as ->.
Qed.

(** C9.  For an address that was never created, each of the five getters
    of the account state database returns the error [AccountNotExist],
    whose text is "account does not exist", and no value.  The service
    tells that condition by this text: [CurrentBalance] returns nil, not a
    zero balance, and the three guarded reads of [VerifierStatus] do not
    return it but go on, while a balance read that fails with any other
    text makes [VerifierStatus] return that error at once. *)
Theorem C9_missing_account_is_reported_and_matched
    (created : list Address) (addr : Address)
    (svc : service.MercuryFullChainService) (rd : service.StateReader) :
  addr ∉ created ->
  service.CurrentState svc = inr rd ->
  service.implements rd (createdFrom created) ->
  (GetBalance (createdFrom created) addr = inl AccountNotExist /\
   GetNonce (createdFrom created) addr = inl AccountNotExist /\
   GetStake (createdFrom created) addr = inl AccountNotExist /\
   GetPerformance (createdFrom created) addr = inl AccountNotExist /\
   GetLastElect (createdFrom created) addr = inl AccountNotExist) /\
  Error AccountNotExist = "account does not exist"%string /\
  service.CurrentBalance svc addr = None /\
  service.VerifierStatus_reads svc addr
    = inr ((service.GetStake rd addr).1, (service.GetBalance rd addr).1,
           (service.GetLastElect rd addr).1) /\
  (forall (svc' : service.MercuryFullChainService) (rd' : service.StateReader)
          (st bal : service.BigInt) (e : error),
     service.CurrentState svc' = inr rd' ->
     service.GetStake rd' addr = (st, None) ->
     service.GetBalance rd' addr = (bal, Some e) ->
     Error e <> "account does not exist"%string ->
     service.VerifierStatus svc' addr
     = service.Returns
         {| service.verifierState := "Not Registered";
            service.stake := st; service.balance := bal;
            service.reputation := 0; service.isCurrentVerifier_res := false;
            service.err := Some e |}).
Proof.
  intros Hnot Hst (Hbal & Hstake & _ & _ & Hle).
  pose proof (createdFrom_absent created addr Hnot) as Habs.
  split.
  { unfold GetBalance, GetNonce, GetStake, GetPerformance, GetLastElect.
    by rewrite !(readAccount_absent _ _ _ Habs). }
  split; [reflexivity|].
  specialize (Hbal addr). specialize (Hstake addr). specialize (Hle addr).
  unfold GetBalance, GetStake, GetLastElect in Hbal, Hstake, Hle.
  rewrite (readAccount_absent _ _ _ Habs) in Hbal.
  rewrite (readAccount_absent _ _ _ Habs) in Hstake.
  rewrite (readAccount_absent _ _ _ Habs) in Hle.
  split; [|split].
  - unfold service.CurrentBalance. rewrite Hst.
    destruct (service.GetBalance rd addr) as [b e]. simpl in Hbal. by subst e.
  - unfold service.VerifierStatus_reads. rewrite Hst.
    destruct (service.GetStake rd addr) as [s es]. simpl in Hstake. subst es.
    rewrite returnedError_AccountNotExist_stake.
    destruct (service.GetBalance rd addr) as [b eb]. simpl in Hbal. subst eb.
    rewrite returnedError_AccountNotExist.
    destruct (service.GetLastElect rd addr) as [l el]. simpl in Hle. subst el.
    by rewrite returnedError_AccountNotExist.
  - intros svc' rd' st bal e Hst' Hs Hb Hne.
    unfold service.VerifierStatus, service.VerifierStatus_reads.
    rewrite Hst', Hs, Hb. simpl.
    by rewrite (returnsOnError_other e Hne).
Qed.

Lemma pairOf_answers {A B : Type} (inj : A -> B) (zero : B)
    (dbget : Address -> error + A) :
  service.answers inj (fun a => service.pairOf inj zero (dbget a)) dbget.
Proof. intros a. by destruct (dbget a). Qed.

Lemma readerOf_implements (nilInt : service.BigInt) (db : AccountStateDB) :
  service.implements (service.readerOf nilInt db) db.
Proof. repeat split; apply pairOf_answers. Qed.

Lemma C9_missing_account_witness :
  (GetBalance (createdFrom fixtures.testCreated) fixtures.charlieAddr = inl AccountNotExist /\
   GetNonce (createdFrom fixtures.testCreated) fixtures.charlieAddr = inl AccountNotExist /\
   GetStake (createdFrom fixtures.testCreated) fixtures.charlieAddr = inl AccountNotExist /\
   GetPerformance (createdFrom fixtures.testCreated) fixtures.charlieAddr
     = inl AccountNotExist /\
   GetLastElect (createdFrom fixtures.testCreated) fixtures.charlieAddr
     = inl AccountNotExist) /\
  Error AccountNotExist = "account does not exist"%string /\
  service.CurrentBalance fixtures.testService fixtures.charlieAddr = None /\
  service.VerifierStatus_reads fixtures.testService fixtures.charlieAddr
    = inr ((service.GetStake fixtures.testReader fixtures.charlieAddr).1,
           (service.GetBalance fixtures.testReader fixtures.charlieAddr).1,
           (service.GetLastElect fixtures.testReader fixtures.charlieAddr).1) /\
  (forall (svc' : service.MercuryFullChainService) (rd' : service.StateReader)
          (st bal : service.BigInt) (e : error),
     service.CurrentState svc' = inr rd' ->
     service.GetStake rd' fixtures.charlieAddr = (st, None) ->
     service.GetBalance rd' fixtures.charlieAddr = (bal, Some e) ->
     Error e <> "account does not exist"%string ->
     service.VerifierStatus svc' fixtures.charlieAddr
     = service.Returns
         {| service.verifierState := "Not Registered";
            service.stake := st; service.balance := bal;
            service.reputation := 0; service.isCurrentVerifier_res := false;
            service.err := Some e |}).
Proof.
  apply (C9_missing_account_is_reported_and_matched
           fixtures.testCreated fixtures.charlieAddr
           fixtures.testService fixtures.testReader).
  - apply (bool_decide_unpack _). vm_compute. exact I.
  - reflexivity.
  - apply readerOf_implements.
Defined.

(** A created account reads as the zero account, and [VerifierStatus]
    classifies it. *)
Example created_account_reads :
  GetBalance fixtures.testDB fixtures.aliceAddr = inr 0%Z /\
  service.CurrentBalance fixtures.testService fixtures.aliceAddr = Some 0%Z /\
  service.VerifierStatus fixtures.testService fixtures.aliceAddr
  = service.Returns
      {| service.verifierState := "Not Registered";
         service.stake := Some 0%Z; service.balance := Some 0%Z;
         service.reputation := 0; service.isCurrentVerifier_res := true;
         service.err := None |}.
Proof. repeat split; vm_compute; reflexivity. Qed.

(** A balance read failing with another text ends [VerifierStatus] with
    that error. *)
Example other_error_is_returned :
  service.VerifierStatus fixtures.brokenService fixtures.aliceAddr
  = service.Returns
      {| service.verifierState := "Not Registered";
         service.stake := Some 0%Z; service.balance := None;
         service.reputation := 0; service.isCurrentVerifier_res := false;
         service.err := Some fixtures.trieError |}.
Proof. vm_compute. reflexivity. Qed.

(** * Further facts about the stage *)

(** X2. The stage never reads the receipts the context holds when it is
    entered.  On a non-special block, either the checks pass and the run
    is the same whatever those receipts were (they are replaced), or the
    stage aborts with the same error and the same trace, each context
    left as it was. *)
Theorem X2_prior_receipts_are_ignored
    (DeriveSha : Receipts -> Hash)
    (Next : BlockContext -> option middleware.error * BlockContext)
    (c : BlockContext) (rs0 : Receipts) :
  IsSpecial (Block c) = false ->
  (exists rs, passes DeriveSha c rs /\
     run DeriveSha Next (withReceipts c rs0) = run DeriveSha Next c /\
     run DeriveSha Next c
     = continued Next (withReceipts c rs) [enterLine c; CallDeriveSha rs])
  \/
  (exists e t, In e ownErrors /\
     run DeriveSha Next c = aborted e c t /\
     run DeriveSha Next (withReceipts c rs0) = aborted e (withReceipts c rs0) t).
Proof.
  intros Hs.
  assert (Hs0 : IsSpecial (Block (withReceipts c rs0)) = false) by done.
  destruct (receiptsOf (Txs (Block c))) as [rs|] eqn:Hrs.
  - pose proof (run_collected DeriveSha Next c rs Hs Hrs) as Hrun.
    pose proof (run_collected DeriveSha Next (withReceipts c rs0) rs Hs0 Hrs) as Hrun0.
    change (Block (withReceipts c rs0)) with (Block c) in Hrun0.
    change (enterLine (withReceipts c rs0)) with (enterLine c) in Hrun0.
    change (hashLine (DeriveSha rs) (withReceipts c rs0))
      with (hashLine (DeriveSha rs) c) in Hrun0.
    change (gasLine (lastCumulative rs) (withReceipts c rs0))
      with (gasLine (lastCumulative rs) c) in Hrun0.
    change (withReceipts (withReceipts c rs0) rs) with (withReceipts c rs) in Hrun0.
    destruct (N.eqb_spec (DeriveSha rs) (GetReceiptHash (Block c))) as [Hh|Hh];
      cbn [negb] in Hrun, Hrun0.
    + destruct (N.eqb_spec (lastCumulative rs) (GetGasUsed (Header (Block c))))
        as [Hg|Hg]; cbn [negb] in Hrun, Hrun0.
      * destruct (N.ltb_spec (GetGasLimit (Header (Block c))) (lastCumulative rs))
          as [Hl|Hl].
        -- right. exists ErrTxGasIsOverRanging, [enterLine c; CallDeriveSha rs].
           split; [unfold ownErrors; simpl; tauto|]. by split.
        -- left. exists rs. split; [by repeat split|]. split; [congruence|done].
      * right. exists ErrGasUsedIsInvalid,
          [enterLine c; CallDeriveSha rs; gasLine (lastCumulative rs) c].
        split; [unfold ownErrors; simpl; tauto|]. by split.
    + right. exists ReceiptHashError,
        [enterLine c; CallDeriveSha rs; hashLine (DeriveSha rs) c].
      split; [unfold ownErrors; simpl; tauto|]. by split.
  - right. exists ErrEmptyReceipt, [enterLine c].
    split; [unfold ownErrors; simpl; tauto|].
    apply receiptsOf_None in Hrs. split.
    + by apply run_missing.
    + by apply (run_missing DeriveSha Next (withReceipts c rs0)).
Qed.

Lemma X2_prior_receipts_witness :
  let c := fixtures.context fixtures.goodBlock in
  let rs0 := [fixtures.rcpt 1 1] in
  (exists rs, passes fixtures.toySha c rs /\
     run fixtures.toySha fixtures.nextOk (withReceipts c rs0)
     = run fixtures.toySha fixtures.nextOk c /\
     run fixtures.toySha fixtures.nextOk c
     = continued fixtures.nextOk (withReceipts c rs) [enterLine c; CallDeriveSha rs])
  \/
  (exists e t, In e ownErrors /\
     run fixtures.toySha fixtures.nextOk c = aborted e c t /\
     run fixtures.toySha fixtures.nextOk (withReceipts c rs0)
     = aborted e (withReceipts c rs0) t).
Proof.
  intros c rs0.
  apply (X2_prior_receipts_are_ignored fixtures.toySha fixtures.nextOk c rs0).
  reflexivity.
Defined.

(** * Further facts about the service *)

Import service_tx.

Lemma returnedError_Some (test : error -> bool) (err : option error) (e : error) :
  service.returnedError test err = Some e -> err = Some e /\ test e = true.
Proof.
  unfold service.returnedError. destruct err as [e'|]; [|done].
  destruct (test e') eqn:Ht; [|done]. by intros [= <-].
Qed.

Lemma returnsOnStakeError_not_missing (e : error) :
  service.returnsOnStakeError e = true ->
  service.isText "account does not exist" e = false.
Proof.
  unfold service.returnsOnStakeError. intros H.
  apply andb_true_iff in H as [H _]. by apply negb_true_iff in H.
Qed.

Lemma returnsOnError_not_missing (e : error) :
  service.returnsOnError e = true ->
  service.isText "account does not exist" e = false.
Proof. unfold service.returnsOnError. by intros H%negb_true_iff. Qed.

(** X3. With a current state at hand, [VerifierStatus] never returns an
    error whose text is "account does not exist": the reads let it pass,
    and the end of the function clears it. *)
Theorem X3_VerifierStatus_never_returns_missing_account
    (svc : service.MercuryFullChainService) (rd : service.StateReader)
    (addr : Address) (r : service.VerifierStatusResult) (e : error) :
  service.CurrentState svc = inr rd ->
  service.VerifierStatus svc addr = service.Returns r ->
  service.err r = Some e ->
  service.isText "account does not exist" e = false.
Proof.
  intros Hst Hret Herr.
  unfold service.VerifierStatus, service.VerifierStatus_reads in Hret.
  rewrite Hst in Hret.
  destruct (service.GetStake rd addr) as [st es].
  destruct (service.returnedError service.returnsOnStakeError es) as [e1|] eqn:H1.
  { injection Hret as <-. simpl in Herr. injection Herr as <-.
    apply returnedError_Some in H1 as [_ H1].
    by apply returnsOnStakeError_not_missing. }
  destruct (service.GetBalance rd addr) as [bal eb].
  destruct (service.returnedError service.returnsOnError eb) as [e2|] eqn:H2.
  { injection Hret as <-. simpl in Herr. injection Herr as <-.
    apply returnedError_Some in H2 as [_ H2].
    by apply returnsOnError_not_missing. }
  destruct (service.GetLastElect rd addr) as [le el].
  destruct (service.returnedError service.returnsOnError el) as [e3|] eqn:H3.
  { injection Hret as <-. simpl in Herr. injection Herr as <-.
    apply returnedError_Some in H3 as [_ H3].
    by apply returnsOnError_not_missing. }
  unfold service.VerifierStatus_classify in Hret.
  destruct st as [s|]; [|done].
  destruct (service.CurrentReputation svc addr) as [rep er].
  injection Hret as <-. simpl in Herr.
  destruct er as [e'|]; [|done].
  destruct (service.isText "account does not exist" e') eqn:Ha; simpl in Herr; [done|].
  destruct (service.isText "stake not sufficient" e'); [done|].
  by injection Herr as <-.
Qed.

Lemma X3_VerifierStatus_witness :
  service.isText "account does not exist" fixtures.trieError = false.
Proof.
  apply (X3_VerifierStatus_never_returns_missing_account
           fixtures.brokenService fixtures.brokenReader fixtures.aliceAddr
           {| service.verifierState := "Not Registered";
              service.stake := Some 0%Z; service.balance := None;
              service.reputation := 0; service.isCurrentVerifier_res := false;
              service.err := Some fixtures.trieError |}
           fixtures.trieError).
  - reflexivity.
  - vm_compute. reflexivity.
  - reflexivity.
Defined.

(** X4. When the three reads let [VerifierStatus] go on with a stake that
    is not nil, it returns, and the state it reports is decided by the
    last election and the stake alone: "Not Registered" (both zero),
    "Registered" (stake only), "Canceled" (both non-zero), "Unstaked"
    (last election only).  The stake and balance returned are the ones
    read, the verifier flag is membership in the current verifiers. *)
Theorem X4_VerifierStatus_classifies
    (svc : service.MercuryFullChainService) (addr : Address)
    (s : Z) (bal : service.BigInt) (le : uint64) :
  service.VerifierStatus_reads svc addr = inr (Some s, bal, le) ->
  exists r,
    service.VerifierStatus svc addr = service.Returns r /\
    service.stake r = Some s /\ service.balance r = bal /\
    service.isCurrentVerifier_res r = service.isCurrentVerifier svc addr /\
    service.verifierState r
    = if le =? 0
      then if (s =? 0)%Z then "Not Registered"%string else "Registered"%string
      else if (s =? 0)%Z then "Unstaked"%string else "Canceled"%string.
Proof.
  intros Hreads. unfold service.VerifierStatus. rewrite Hreads.
  unfold service.VerifierStatus_classify.
  destruct (service.CurrentReputation svc addr) as [rep er].
  eexists. split; [reflexivity|]. simpl.
  repeat split. by destruct (le =? 0), (s =? 0)%Z.
Qed.

Lemma X4_VerifierStatus_classifies_witness :
  exists r,
    service.VerifierStatus fixtures.testService fixtures.aliceAddr = service.Returns r /\
    service.stake r = Some 0%Z /\ service.balance r = Some 0%Z /\
    service.isCurrentVerifier_res r
    = service.isCurrentVerifier fixtures.testService fixtures.aliceAddr /\
    service.verifierState r
    = if 0 =? 0
      then if (0 =? 0)%Z then "Not Registered"%string else "Registered"%string
      else if (0 =? 0)%Z then "Unstaked"%string else "Canceled"%string.
Proof.
  apply (X4_VerifierStatus_classifies fixtures.testService fixtures.aliceAddr
           0%Z (Some 0%Z) 0).
  vm_compute. reflexivity.
Defined.

(** X5. [VerifierStatus] panics in exactly one situation: the current
    state is at hand, none of the three reads makes it return, and the
    stake that came back is nil (with no error, or with one of the two
    errors the stake read lets pass). *)
Theorem X5_VerifierStatus_panics_on_nil_stake
    (svc : service.MercuryFullChainService) (addr : Address) :
  service.VerifierStatus svc addr = service.Panics <->
  exists rd,
    service.CurrentState svc = inr rd /\
    (service.GetStake rd addr).1 = None /\
    service.returnedError service.returnsOnStakeError (service.GetStake rd addr).2 = None /\
    service.returnedError service.returnsOnError (service.GetBalance rd addr).2 = None /\
    service.returnedError service.returnsOnError (service.GetLastElect rd addr).2 = None.
Proof.
  unfold service.VerifierStatus, service.VerifierStatus_reads. split.
  - destruct (service.CurrentState svc) as [e|rd]; [done|].
    intros H. exists rd. split; [done|].
    destruct (service.GetStake rd addr) as [st es]. simpl.
    destruct (service.returnedError service.returnsOnStakeError es); [done|].
    destruct (service.GetBalance rd addr) as [bal eb]. simpl.
    destruct (service.returnedError service.returnsOnError eb); [done|].
    destruct (service.GetLastElect rd addr) as [le el]. simpl.
    destruct (service.returnedError service.returnsOnError el); [done|].
    unfold service.VerifierStatus_classify in H.
    destruct st as [s|]; [|done].
    by destruct (service.CurrentReputation svc addr).
  - intros (rd & -> & Hnil & H1 & H2 & H3).
    destruct (service.GetStake rd addr) as [st es]. simpl in *. rewrite H1.
    destruct (service.GetBalance rd addr) as [bal eb]. simpl in *. rewrite H2.
    destruct (service.GetLastElect rd addr) as [le el]. simpl in *. rewrite H3.
    by subst st.
Qed.

(** A reader that hands back nil with the error of a missing account
    makes [VerifierStatus] panic on an address never created. *)
Example VerifierStatus_panics_on_missing_account :
  service.VerifierStatus fixtures.testService fixtures.charlieAddr = service.Panics.
Proof. vm_compute. reflexivity. Qed.

(** X6. [CurrentReputation] drops the errors of its two reads: with the
    state at hand its result is what the reputation calculator makes of
    the two values that came back, whatever errors came with them, and a
    result with an error carries reputation 0. *)
Theorem X6_CurrentReputation_ignores_read_errors
    (svc : service.MercuryFullChainService) (rd : service.StateReader)
    (addr : Address) :
  service.CurrentState svc = inr rd ->
  (forall (svc' : service.MercuryFullChainService) (rd' : service.StateReader),
     service.CurrentState svc' = inr rd' ->
     service.GetReputation svc' = service.GetReputation svc ->
     (service.GetStake rd' addr).1 = (service.GetStake rd addr).1 ->
     (service.GetPerformance rd' addr).1 = (service.GetPerformance rd addr).1 ->
     service.CurrentReputation svc' addr = service.CurrentReputation svc addr) /\
  (forall e, (service.CurrentReputation svc addr).2 = Some e ->
     (service.CurrentReputation svc addr).1 = 0 /\
     (service.GetReputation svc 0 (service.GetStake rd addr).1
        (service.GetPerformance rd addr).1).2 = Some e).
Proof.
  intros Hst. split.
  - intros svc' rd' Hst' Hrep Hs Hp. unfold service.CurrentReputation.
    rewrite Hst, Hst', Hrep.
    destruct (service.GetStake rd addr), (service.GetStake rd' addr),
      (service.GetPerformance rd addr), (service.GetPerformance rd' addr).
    simpl in *. by subst.
  - intros e. unfold service.CurrentReputation. rewrite Hst.
    destruct (service.GetStake rd addr) as [st es],
      (service.GetPerformance rd addr) as [pf ep]. simpl.
    destruct (service.GetReputation svc 0 st pf) as [rep [e'|]]; simpl; [|done].
    by intros [= <-].
Qed.

Lemma X6_CurrentReputation_witness :
  (forall (svc' : service.MercuryFullChainService) (rd' : service.StateReader),
     service.CurrentState svc' = inr rd' ->
     service.GetReputation svc' = service.GetReputation fixtures.testService ->
     (service.GetStake rd' fixtures.charlieAddr).1
     = (service.GetStake fixtures.testReader fixtures.charlieAddr).1 ->
     (service.GetPerformance rd' fixtures.charlieAddr).1
     = (service.GetPerformance fixtures.testReader fixtures.charlieAddr).1 ->
     service.CurrentReputation svc' fixtures.charlieAddr
     = service.CurrentReputation fixtures.testService fixtures.charlieAddr) /\
  (forall e,
     (service.CurrentReputation fixtures.testService fixtures.charlieAddr).2 = Some e ->
     (service.CurrentReputation fixtures.testService fixtures.charlieAddr).1 = 0 /\
     (service.GetReputation fixtures.testService 0
        (service.GetStake fixtures.testReader fixtures.charlieAddr).1
        (service.GetPerformance fixtures.testReader fixtures.charlieAddr).1).2 = Some e).
Proof.
  apply (X6_CurrentReputation_ignores_read_errors
           fixtures.testService fixtures.testReader fixtures.charlieAddr).
  reflexivity.
Defined.

(** The reputation of an address never created is computed all the same,
    from the values that came with the errors. *)
Example CurrentReputation_of_missing_account :
  service.CurrentReputation fixtures.testService fixtures.charlieAddr = (0, None).
Proof. vm_compute. reflexivity. Qed.

(** X7. [isCurrentVerifier] is membership in the list of current
    verifiers. *)
Theorem X7_isCurrentVerifier_is_membership
    (svc : service.MercuryFullChainService) (addr : Address) :
  service.isCurrentVerifier svc addr = true <-> addr ∈ service.GetCurrVerifiers svc.
Proof.
  unfold service.isCurrentVerifier.
  induction (service.GetCurrVerifiers svc) as [|v vers IH]; simpl.
  - split; [done|]. by intros ?%elem_of_nil.
  - destruct (N.eqb_spec v addr) as [->|Hne].
    + split; [intros _; by left|done].
    + rewrite IH. split; [by right|].
      intros [?|?]%elem_of_cons; [congruence|done].
Qed.

(** ** Sending *)

Lemma firstError_None (errs : list (option error)) :
  firstError errs = None <-> Forall (fun e => e = None) errs.
Proof.
  induction errs as [|[e|] errs IH]; simpl.
  - split; [constructor|done].
  - split; [done|]. by intros [? _]%Forall_cons.
  - rewrite IH. split; [by constructor|]. by intros [_ ?]%Forall_cons.
Qed.

(** The error found is the first entry that is not nil. *)
Lemma firstError_Some (errs : list (option error)) (e : error) :
  firstError errs = Some e <->
  exists i, errs !! i = Some (Some e) /\
    forall j, (j < i)%nat -> errs !! j = Some None.
Proof.
  induction errs as [|[e'|] errs IH]; simpl.
  - split; [done|]. by intros (i & Hi & _).
  - split.
    + intros [= ->]. exists 0%nat. split; [done|]. lia.
    + intros (i & Hi & Hbefore). destruct i as [|i].
      * by injection Hi as ->.
      * by specialize (Hbefore 0%nat ltac:(lia)).
  - rewrite IH. split.
    + intros (i & Hi & Hbefore). exists (S i). split; [done|].
      intros [|j] Hj; [done|]. apply Hbefore. lia.
    + intros (i & Hi & Hbefore). destruct i as [|i]; [done|].
      exists i. split; [done|]. intros j Hj. apply (Hbefore (S j)). lia.
Qed.

(** X8. [getSendTxInfo] succeeds exactly when the wallet of the sender is
    found, the current state is at hand and the chain nonce of the sender
    is read without error (so not for an account the state does not
    have).  The nonce it gives is the caller's when there is one, as it
    is; otherwise the larger of the wallet's nonce and the chain's. *)
Theorem X8_getSendTxInfo_nonce {Tx : Type}
    (env : SendEnv Tx) (from : Address) (nonce : option uint64)
    (w : Wallet Tx) (n : uint64) :
  getSendTxInfo env from nonce = inr (w, n) <->
  FindWalletFromAddress env from = inr w /\
  exists state chainNonce,
    ChainState env = inr state /\
    service.GetNonce state from = (chainNonce, None) /\
    n = match nonce with
        | Some k => k
        | None => N.max (GetAddressNonce w from).1 chainNonce
        end.
Proof.
  unfold getSendTxInfo. split.
  - destruct (FindWalletFromAddress env from) as [e|w']; [done|].
    destruct (ChainState env) as [e|state]; [done|].
    destruct (service.GetNonce state from) as [chainNonce [e|]] eqn:Hn; [done|].
    destruct (GetAddressNonce w' from) as [walletNonce ew] eqn:Hw.
    intros [= <- <-]. split; [done|]. exists state, chainNonce.
    split; [done|]. split; [done|]. rewrite Hw. simpl.
    destruct nonce as [k|]; [done|].
    destruct (N.ltb_spec walletNonce chainNonce); lia.
  - intros (-> & state & chainNonce & -> & -> & ->).
    destruct (GetAddressNonce w from) as [walletNonce ew]. simpl.
    destruct nonce as [k|]; [done|].
    do 2 f_equal. destruct (N.ltb_spec walletNonce chainNonce); lia.
Qed.

(** With the test state: alice has chain nonce 0 and wallet nonce 7, and
    an explicit nonce is taken even when it is below both. *)
Example getSendTxInfo_examples :
  getSendTxInfo fixtures_tx.demoEnv fixtures.aliceAddr None
    = inr (fixtures_tx.demoWallet, 7) /\
  getSendTxInfo fixtures_tx.demoEnv fixtures.aliceAddr (Some 3)
    = inr (fixtures_tx.demoWallet, 3) /\
  getSendTxInfo fixtures_tx.demoEnv fixtures.charlieAddr None
    = inl (errors_New "wallet not found").
Proof. repeat split. Qed.

(** X9. [signTxAndSend] returns the signed transaction exactly when the
    wallet signs, the validator accepts the signed transaction, the pool
    reports no error for it and the wallet stores the next nonce.  It has
    then given the signed transaction alone to the pool, broadcast it, and
    set the wallet's nonce of the sender to the used nonce plus one,
    wrapped to 64 bits. *)
Theorem X9_signTxAndSend_success {Tx : Type}
    (env : SendEnv Tx) (w : Wallet Tx) (from : Address) (tx : Tx)
    (usedNonce : uint64) (signedTx : Tx) (t : list (SendEvent Tx)) :
  signTxAndSend env w from tx usedNonce = (inr signedTx, t) <->
  SignTx w from tx = inr signedTx /\
  Valid env signedTx = None /\
  Forall (fun e => e = None) (AddRemotes env [signedTx]) /\
  SetAddressNonce w from ((usedNonce + 1) mod 2 ^ 64) = None /\
  t = [PoolAddRemotes [signedTx]; BroadcastTx [signedTx];
       WalletSetAddressNonce from ((usedNonce + 1) mod 2 ^ 64)].
Proof.
  unfold signTxAndSend, wrap64. split.
  - destruct (SignTx w from tx) as [e|s]; [done|].
    destruct (Valid env s) as [e|] eqn:Hv; [done|].
    destruct (firstError (AddRemotes env [s])) as [e|] eqn:Hp; [done|].
    destruct (SetAddressNonce w from _) as [e|] eqn:Hs; [done|].
    intros [= <- <-]. apply firstError_None in Hp. by repeat split.
  - intros (-> & -> & Hp & Hs & ->). apply firstError_None in Hp.
    by rewrite Hp, Hs.
Qed.

(** X10. Whatever [signTxAndSend] returns, it broadcasts only what the
    pool has just taken without error: a broadcast in its trace is of the
    one signed and validated transaction.  An error returned after a
    broadcast is the wallet's failure to store the next nonce: the
    transaction is in the pool and on the network all the same. *)
Theorem X10_signTxAndSend_broadcast_after_pool {Tx : Type}
    (env : SendEnv Tx) (w : Wallet Tx) (from : Address) (tx : Tx)
    (usedNonce : uint64) (txs : list Tx) :
  In (BroadcastTx txs) (signTxAndSend env w from tx usedNonce).2 ->
  exists signedTx,
    txs = [signedTx] /\
    SignTx w from tx = inr signedTx /\
    Valid env signedTx = None /\
    Forall (fun e => e = None) (AddRemotes env [signedTx]) /\
    (signTxAndSend env w from tx usedNonce).2
    = [PoolAddRemotes [signedTx]; BroadcastTx [signedTx];
       WalletSetAddressNonce from ((usedNonce + 1) mod 2 ^ 64)] /\
    (forall e, (signTxAndSend env w from tx usedNonce).1 = inl e ->
       SetAddressNonce w from ((usedNonce + 1) mod 2 ^ 64) = Some e).
Proof.
  unfold signTxAndSend, wrap64.
  destruct (SignTx w from tx) as [e|s]; [by intros []|].
  destruct (Valid env s) as [e|] eqn:Hv; [by intros []|].
  destruct (firstError (AddRemotes env [s])) as [e|] eqn:Hp.
  { simpl. intros [?|[]]. discriminate. }
  apply firstError_None in Hp.
  destruct (SetAddressNonce w from _) as [e|] eqn:Hs; simpl;
    intros [?|[[= <-]|[?|[]]]]; try discriminate;
    exists s; repeat split; try done; by intros e' [= <-].
Qed.

Lemma X10_signTxAndSend_broadcast_witness :
  let tx := {| fixtures_tx.dNonce := 7; fixtures_tx.dTo := fixtures.bobAddr;
               fixtures_tx.dValue := Some 200%Z; fixtures_tx.dSigner := None |} in
  let signed := {| fixtures_tx.dNonce := 7; fixtures_tx.dTo := fixtures.bobAddr;
                   fixtures_tx.dValue := Some 200%Z;
                   fixtures_tx.dSigner := Some fixtures.aliceAddr |} in
  exists signedTx,
    [signed] = [signedTx] /\
    SignTx fixtures_tx.readOnlyWallet fixtures.aliceAddr tx = inr signedTx /\
    Valid fixtures_tx.demoEnv signedTx = None /\
    Forall (fun e => e = None) (AddRemotes fixtures_tx.demoEnv [signedTx]) /\
    (signTxAndSend fixtures_tx.demoEnv fixtures_tx.readOnlyWallet
       fixtures.aliceAddr tx 7).2
    = [PoolAddRemotes [signedTx]; BroadcastTx [signedTx];
       WalletSetAddressNonce fixtures.aliceAddr ((7 + 1) mod 2 ^ 64)] /\
    (forall e,
       (signTxAndSend fixtures_tx.demoEnv fixtures_tx.readOnlyWallet
          fixtures.aliceAddr tx 7).1 = inl e ->
       SetAddressNonce fixtures_tx.readOnlyWallet fixtures.aliceAddr
         ((7 + 1) mod 2 ^ 64) = Some e).
Proof.
  intros tx signed.
  apply (X10_signTxAndSend_broadcast_after_pool fixtures_tx.demoEnv
           fixtures_tx.readOnlyWallet fixtures.aliceAddr tx 7 [signed]).
  vm_compute. right. left. reflexivity.
Defined.

(** The wallet that cannot store: the error comes back after the
    transaction was pooled and broadcast. *)
Example signTxAndSend_error_after_broadcast :
  let tx := {| fixtures_tx.dNonce := 7; fixtures_tx.dTo := fixtures.bobAddr;
               fixtures_tx.dValue := Some 200%Z; fixtures_tx.dSigner := None |} in
  let signed := {| fixtures_tx.dNonce := 7; fixtures_tx.dTo := fixtures.bobAddr;
                   fixtures_tx.dValue := Some 200%Z;
                   fixtures_tx.dSigner := Some fixtures.aliceAddr |} in
  signTxAndSend fixtures_tx.demoEnv fixtures_tx.readOnlyWallet fixtures.aliceAddr tx 7
  = (inl (errors_New "wallet is read only"),
     [PoolAddRemotes [signed]; BroadcastTx [signed];
      WalletSetAddressNonce fixtures.aliceAddr 8]).
Proof. reflexivity. Qed.

(** The largest nonce wraps: the wallet is told 0. *)
Example signTxAndSend_nonce_wraps :
  let tx := {| fixtures_tx.dNonce := 18446744073709551615;
               fixtures_tx.dTo := fixtures.bobAddr;
               fixtures_tx.dValue := Some 200%Z; fixtures_tx.dSigner := None |} in
  (signTxAndSend fixtures_tx.demoEnv fixtures_tx.demoWallet fixtures.aliceAddr tx
     18446744073709551615).2 !! 2%nat
  = Some (WalletSetAddressNonce fixtures.aliceAddr 0).
Proof. reflexivity. Qed.

(** X11. A sender given as the zero address stands for the default
    account of the node: the call is the call with the default account as
    sender, and when that one is the zero address too the call ends with
    "no default account in this node" before anything else is done. *)
Theorem X11_SendTransaction_default_account {Tx : Type}
    (env : SendEnv Tx) (to : Address) (value fee : service.BigInt)
    (data : list N) (nonce : option uint64) :
  (DefaultAccount env = 0 ->
   SendTransaction env 0 to value fee data nonce
   = ((0, Some (errors_New "no default account in this node")), [])) /\
  (DefaultAccount env <> 0 ->
   SendTransaction env 0 to value fee data nonce
   = SendTransaction env (DefaultAccount env) to value fee data nonce).
Proof.
  unfold SendTransaction. split.
  - by intros ->.
  - intros Hne. simpl. by apply N.eqb_neq in Hne as ->.
Qed.

(** X12. A call of [SendTransaction] that ends without error has built
    the transaction with the nonce [getSendTxInfo] gave for the sender
    (the default account for a zero sender), had the sender's wallet sign
    it, pooled and broadcast the signed transaction and moved the
    wallet's nonce to that nonce plus one; the hash returned is the id of
    the signed transaction. *)
Theorem X12_SendTransaction_success {Tx : Type}
    (env : SendEnv Tx) (from to : Address) (value fee : service.BigInt)
    (data : list N) (nonce : option uint64) (h : Hash)
    (t : list (SendEvent Tx)) :
  SendTransaction env from to value fee data nonce = ((h, None), t) ->
  exists sender w used signedTx,
    sender = (if from =? 0 then DefaultAccount env else from) /\
    (sender =? 0) = false /\
    getSendTxInfo env sender nonce = inr (w, used) /\
    SignTx w sender (NewTransaction env used to value fee data) = inr signedTx /\
    Valid env signedTx = None /\
    h = CalTxId env signedTx /\
    t = [PoolAddRemotes [signedTx]; BroadcastTx [signedTx];
         WalletSetAddressNonce sender ((used + 1) mod 2 ^ 64)].
Proof.
  unfold SendTransaction. intros H.
  set (sender := if from =? 0 then DefaultAccount env else from) in *.
  assert (Hs : (sender =? 0) = false).
  { destruct (from =? 0) eqn:Hf; simpl in H.
    - by destruct (sender =? 0).
    - by subst sender. }
  rewrite Hs, andb_false_r in H.
  destruct (getSendTxInfo env sender nonce) as [e|[w used]] eqn:Hinfo; [done|].
  unfold signTxAndSend, wrap64 in H.
  destruct (SignTx w sender _) as [e|s] eqn:Hsign; [done|].
  destruct (Valid env s) as [e|] eqn:Hv; [done|].
  destruct (firstError (AddRemotes env [s])) as [e|]; [done|].
  destruct (SetAddressNonce w sender _) as [e|]; [done|].
  injection H as <- <-. by exists sender, w, used, s.
Qed.

Lemma X12_SendTransaction_success_witness :
  exists sender w used signedTx,
    sender = (if 0 =? 0 then DefaultAccount fixtures_tx.demoEnv else 0) /\
    (sender =? 0) = false /\
    getSendTxInfo fixtures_tx.demoEnv sender None = inr (w, used) /\
    SignTx w sender
      (NewTransaction fixtures_tx.demoEnv used fixtures.bobAddr (Some 200%Z)
         (Some 1%Z) [])
    = inr signedTx /\
    Valid fixtures_tx.demoEnv signedTx = None /\
    7000 + fixtures.bobAddr = CalTxId fixtures_tx.demoEnv signedTx /\
    [PoolAddRemotes
       [{| fixtures_tx.dNonce := 7; fixtures_tx.dTo := fixtures.bobAddr;
           fixtures_tx.dValue := Some 200%Z;
           fixtures_tx.dSigner := Some fixtures.aliceAddr |}];
     BroadcastTx
       [{| fixtures_tx.dNonce := 7; fixtures_tx.dTo := fixtures.bobAddr;
           fixtures_tx.dValue := Some 200%Z;
           fixtures_tx.dSigner := Some fixtures.aliceAddr |}];
     WalletSetAddressNonce fixtures.aliceAddr 8]
    = [PoolAddRemotes [signedTx]; BroadcastTx [signedTx];
       WalletSetAddressNonce sender ((used + 1) mod 2 ^ 64)].
Proof.
  apply (X12_SendTransaction_success fixtures_tx.demoEnv 0 fixtures.bobAddr
           (Some 200%Z) (Some 1%Z) [] None).
  vm_compute. reflexivity.
Defined.

(** X13. [NewSendTransactions] hands every transaction to the pool, in
    the order given, before it looks at any error.  It returns their
    number when the pool reports no error, and otherwise 0 with the first
    error in pool order, whatever the pool made of the others. *)
Theorem X13_NewSendTransactions {Tx : Type} (env : SendEnv Tx) (txs : list Tx) :
  (NewSendTransactions env txs).2 = [PoolAddLocals txs] /\
  (Forall (fun e => e = None) (AddLocals env txs) ->
   (NewSendTransactions env txs).1 = (length txs, None)) /\
  (forall i e,
     AddLocals env txs !! i = Some (Some e) ->
     (forall j, (j < i)%nat -> AddLocals env txs !! j = Some None) ->
     (NewSendTransactions env txs).1 = (0%nat, Some e)).
Proof.
  unfold NewSendTransactions. split; [by destruct (firstError _)|]. split.
  - intros Hall. by apply firstError_None in Hall as ->.
  - intros i e Hi Hbefore.
    assert (H : firstError (AddLocals env txs) = Some e)
      by (apply firstError_Some; eauto).
    by rewrite H.
Qed.

(** Three transactions, the second refused: count 0, the pool got all. *)
Example NewSendTransactions_second_refused :
  let mk n := {| fixtures_tx.dNonce := n; fixtures_tx.dTo := fixtures.bobAddr;
                 fixtures_tx.dValue := None; fixtures_tx.dSigner := None |} in
  NewSendTransactions fixtures_tx.demoEnv [mk 5; mk 0; mk 6]
  = ((0%nat, Some (errors_New "nonce too low")), [PoolAddLocals [mk 5; mk 0; mk 6]]).
Proof. reflexivity. Qed.

(** X14. The nonce [getSendTxInfo] picks when the caller gives none is
    never below the chain nonce [GetTransactionNonce] reports for the
    sender on the same state, nor below the nonce the wallet remembers. *)
Theorem X14_picked_nonce_not_below_chain_nonce {Tx : Type}
    (env : SendEnv Tx) (svc : service.MercuryFullChainService)
    (from : Address) (w : Wallet Tx) (n : uint64) :
  ChainState env = service.CurrentState svc ->
  getSendTxInfo env from None = inr (w, n) ->
  exists k,
    GetTransactionNonce svc from = (k, None) /\
    k <= n /\ (GetAddressNonce w from).1 <= n.
Proof.
  unfold getSendTxInfo, GetTransactionNonce. intros <-.
  destruct (FindWalletFromAddress env from) as [e|w']; [done|].
  destruct (ChainState env) as [e|state]; [done|].
  destruct (service.GetNonce state from) as [chainNonce [e|]]; [done|].
  destruct (GetAddressNonce w' from) as [walletNonce ew] eqn:Hw.
  intros [= <- <-]. exists chainNonce. rewrite Hw. simpl.
  split; [done|]. destruct (N.ltb_spec walletNonce chainNonce); lia.
Qed.

Lemma X14_picked_nonce_witness :
  exists k,
    GetTransactionNonce fixtures.testService fixtures.aliceAddr = (k, None) /\
    k <= 7 /\
    (GetAddressNonce fixtures_tx.demoWallet fixtures.aliceAddr).1 <= 7.
Proof.
  apply (X14_picked_nonce_not_below_chain_nonce fixtures_tx.demoEnv
           fixtures.testService fixtures.aliceAddr fixtures_tx.demoWallet 7).
  - reflexivity.
  - reflexivity.
Defined.

(** ** Wallet identifiers *)

Lemma fill_idempotent (x d : string) :
  let x' := if isEmptyString x then d else x in
  (if isEmptyString x' then d else x') = x'.
Proof.
  simpl. destruct (isEmptyString x) eqn:Hx.
  - by destruct (isEmptyString d).
  - by rewrite Hx.
Qed.

Lemma checkWalletIdentifier_soft (conf : NodeConf) (w : WalletIdentifier) :
  isSoftWallet (WalletType_ w) = true ->
  checkWalletIdentifier conf w
  = ({| WalletType_ := WalletType_ w;
        Path := if isEmptyString (Path w) then SoftWalletDir conf else Path w;
        WalletName :=
          if isEmptyString (WalletName w) then SoftWalletName conf else WalletName w |},
     None).
Proof.
  intros Ht. unfold checkWalletIdentifier. rewrite Ht. simpl.
  destruct w as [ty path name]. simpl.
  destruct (isEmptyString name) eqn:Hn; destruct (isEmptyString path) eqn:Hp;
    simpl; by rewrite ?Hp.
Qed.

(** X15. [checkWalletIdentifier] refuses every wallet type but the soft
    wallet with "wallet type error" and leaves the identifier alone.  For
    a soft wallet it fills an empty name and an empty path with the
    node's defaults, keeps a name or path that is given, and checking the
    result again changes nothing. *)
Theorem X15_checkWalletIdentifier (conf : NodeConf) (w : WalletIdentifier) :
  (isSoftWallet (WalletType_ w) = false ->
   checkWalletIdentifier conf w = (w, Some (errors_New "wallet type error"))) /\
  (isSoftWallet (WalletType_ w) = true ->
   exists w',
     checkWalletIdentifier conf w = (w', None) /\
     WalletType_ w' = WalletType_ w /\
     WalletName w'
       = (if isEmptyString (WalletName w) then SoftWalletName conf else WalletName w) /\
     Path w' = (if isEmptyString (Path w) then SoftWalletDir conf else Path w) /\
     checkWalletIdentifier conf w' = (w', None)).
Proof.
  split; intros Ht.
  - unfold checkWalletIdentifier. by rewrite Ht.
  - eexists. split; [by apply checkWalletIdentifier_soft|].
    simpl. repeat split.
    rewrite checkWalletIdentifier_soft by done. simpl.
    by rewrite (fill_idempotent (Path w)), (fill_idempotent (WalletName w)).
Qed.

Example checkWalletIdentifier_examples :
  checkWalletIdentifier fixtures_tx.demoConf
    {| WalletType_ := SoftWallet; Path := ""; WalletName := "mine" |}
  = ({| WalletType_ := SoftWallet; Path := "/home/node/wallets"; WalletName := "mine" |},
     None) /\
  checkWalletIdentifier fixtures_tx.demoConf
    {| WalletType_ := OtherWallet 1; Path := ""; WalletName := "" |}
  = ({| WalletType_ := OtherWallet 1; Path := ""; WalletName := "" |},
     Some (errors_New "wallet type error")).
Proof. split; reflexivity. Qed.

(** ** Election priority *)

(** X16. A priority returned without error was computed by the priority
    calculator from the luck of the address's wallet on the current seed
    and from the nonce, stake and performance of the address, each read
    without error from the state at the block [NumBeforeLastBySlot] gives
    for the slot of the current block: unlike [CurrentReputation], the
    function passes on no value that came with an error. *)
Theorem X16_CurrentElectPriority_success {Tx : Type}
    (env : SendEnv Tx) (elect : ElectEnv) (addr : Address) (p : uint64) :
  CurrentElectPriority env elect addr = Returned (p, None) ->
  exists luck blockNumber slot num state nonce stake performance,
    getLuckProof env elect addr = inr (luck, blockNumber) /\
    GetSlot elect = Some slot /\
    NumBeforeLastBySlot elect slot = Some num /\
    StateAtByBlockNumber elect num = inr state /\
    service.GetNonce state addr = (nonce, None) /\
    service.GetStake state addr = (stake, None) /\
    service.GetPerformance state addr = (performance, None) /\
    GetElectPriority elect luck nonce stake performance = (p, None).
Proof.
  unfold CurrentElectPriority.
  destruct (getLuckProof env elect addr) as [e|[luck bn]] eqn:H0; [done|].
  destruct (GetSlot elect) as [slot|] eqn:H1; [|done].
  destruct (NumBeforeLastBySlot elect slot) as [num|] eqn:H2; [|done].
  destruct (StateAtByBlockNumber elect num) as [e|state] eqn:H3; [done|].
  destruct (service.GetNonce state addr) as [nonce [e|]] eqn:H4; [done|].
  destruct (service.GetStake state addr) as [stake [e|]] eqn:H5; [done|].
  destruct (service.GetPerformance state addr) as [perf [e|]] eqn:H6; [done|].
  destruct (GetElectPriority elect luck nonce stake perf) as [p' [e|]] eqn:Hp; [done|].
  intros [= <-]. exists luck, bn, slot, num, state, nonce, stake, perf.
  by repeat split.
Qed.

Lemma X16_CurrentElectPriority_witness :
  exists luck blockNumber slot num state nonce stake performance,
    getLuckProof fixtures_tx.demoEnv fixtures_tx.demoElect fixtures.aliceAddr
    = inr (luck, blockNumber) /\
    GetSlot fixtures_tx.demoElect = Some slot /\
    NumBeforeLastBySlot fixtures_tx.demoElect slot = Some num /\
    StateAtByBlockNumber fixtures_tx.demoElect num = inr state /\
    service.GetNonce state fixtures.aliceAddr = (nonce, None) /\
    service.GetStake state fixtures.aliceAddr = (stake, None) /\
    service.GetPerformance state fixtures.aliceAddr = (performance, None) /\
    GetElectPriority fixtures_tx.demoElect luck nonce stake performance = (42, None).
Proof.
  apply (X16_CurrentElectPriority_success fixtures_tx.demoEnv fixtures_tx.demoElect
           fixtures.aliceAddr 42).
  vm_compute. reflexivity.
Defined.

(** X17. [CurrentElectPriority] panics exactly when the luck of the
    address is computed and the slot of the current block is a nil
    pointer; a failure to find the wallet or to compute the luck is
    returned before the slot is looked at.  Every error comes with
    priority 0. *)
Theorem X17_CurrentElectPriority_panic_and_errors {Tx : Type}
    (env : SendEnv Tx) (elect : ElectEnv) (addr : Address) :
  (CurrentElectPriority env elect addr = Panic <->
   (exists luck blockNumber, getLuckProof env elect addr = inr (luck, blockNumber)) /\
   GetSlot elect = None) /\
  (forall e, getLuckProof env elect addr = inl e ->
     CurrentElectPriority env elect addr = Returned (0, Some e)) /\
  (forall p e, CurrentElectPriority env elect addr = Returned (p, Some e) -> p = 0).
Proof.
  unfold CurrentElectPriority.
  destruct (getLuckProof env elect addr) as [e|[luck bn]].
  { split; [split; [done|by intros [(? & ? & ?) _]]|].
    split; [by intros ? [= <-]|by intros ? ? [= <- _]]. }
  destruct (GetSlot elect) as [slot|].
  2: { split; [split; [eauto|done]|]. split; [done|done]. }
  split; [|split; [done|]].
  - split; [|by intros [_ ?]].
    destruct (NumBeforeLastBySlot elect slot) as [num|]; [|done].
    destruct (StateAtByBlockNumber elect num) as [e|state]; [done|].
    destruct (service.GetNonce state addr) as [nonce [e|]]; [done|].
    destruct (service.GetStake state addr) as [stake [e|]]; [done|].
    destruct (service.GetPerformance state addr) as [perf [e|]]; [done|].
    by destruct (GetElectPriority elect luck nonce stake perf) as [p' [e|]].
  - intros p e.
    destruct (NumBeforeLastBySlot elect slot) as [num|]; [|by intros [= <- _]].
    destruct (StateAtByBlockNumber elect num) as [e'|state]; [by intros [= <- _]|].
    destruct (service.GetNonce state addr) as [nonce [e'|]]; [by intros [= <- _]|].
    destruct (service.GetStake state addr) as [stake [e'|]]; [by intros [= <- _]|].
    destruct (service.GetPerformance state addr) as [perf [e'|]]; [by intros [= <- _]|].
    destruct (GetElectPriority elect luck nonce stake perf) as [p' [e'|]];
      [by intros [= <- _]|done].
Qed.

(** The priority of an address the state at that block never saw is the
    error of the first read. *)
Example CurrentElectPriority_of_missing_account :
  CurrentElectPriority
    (fixtures_tx.demoEnvWith fixtures_tx.demoWallet fixtures.aliceAddr)
    {| CurrentSeed := (41, 9); GetSlot := Some 3;
       NumBeforeLastBySlot := fun slot => Some (10 * slot);
       StateAtByBlockNumber := fun _ => inr (service.readerOf None emptyDB);
       GetElectPriority := fun luck nonce _ _ => (luck + nonce, None) |}
    fixtures.aliceAddr
  = Returned (0, Some AccountNotExist).
Proof. vm_compute. reflexivity. Qed.

(** * Facts about the state double of the tests *)

(** X18. In the double a deposit made before the address was ever read or
    created is lost: [AddBalance] does nothing on an absent address, and
    the first [GetBalance] then enters the default of 9000000.  Made after
    a first read, the same deposit counts. *)
Theorem X18_fakeStateDB_deposit_before_first_read
    (state : test_info_test.fakeStateDB) (addr : Address) (amount : Z) :
  test_info_test.account state !! addr = None ->
  test_info_test.AddBalance state addr amount = state /\
  (test_info_test.GetBalance (test_info_test.AddBalance state addr amount) addr).1
  = 9000000%Z /\
  (test_info_test.GetBalance
     (test_info_test.AddBalance (test_info_test.GetBalance state addr).2 addr amount)
     addr).1
  = (9000000 + amount)%Z.
Proof.
  intros Habs. unfold test_info_test.AddBalance, test_info_test.GetBalance.
  rewrite Habs. simpl. rewrite Habs. simpl.
  rewrite lookup_insert_eq. simpl. by rewrite lookup_insert_eq.
Qed.

Lemma X18_fakeStateDB_deposit_witness :
  test_info_test.AddBalance fixtures_tx.demoState fixtures.bobAddr 25
  = fixtures_tx.demoState /\
  (test_info_test.GetBalance
     (test_info_test.AddBalance fixtures_tx.demoState fixtures.bobAddr 25)
     fixtures.bobAddr).1
  = 9000000%Z /\
  (test_info_test.GetBalance
     (test_info_test.AddBalance
        (test_info_test.GetBalance fixtures_tx.demoState fixtures.bobAddr).2
        fixtures.bobAddr 25)
     fixtures.bobAddr).1
  = (9000000 + 25)%Z.
Proof.
  apply (X18_fakeStateDB_deposit_before_first_read
           fixtures_tx.demoState fixtures.bobAddr 25).
  reflexivity.
Defined.

(** X19. On an address the double holds, [SubBalance] returns, taking the
    amount off the balance (below zero if need be) and touching no other
    address, and [AddBalance] of the same amount brings the map back to
    what it was.  On an absent address [SubBalance] panics. *)
Theorem X19_fakeStateDB_withdraw_and_deposit
    (state : test_info_test.fakeStateDB) (addr : Address) (b amount : Z) :
  test_info_test.account state !! addr = Some b ->
  exists state',
    test_info_test.SubBalance state addr amount = Returned state' /\
    (test_info_test.GetBalance state' addr) = ((b - amount)%Z, state') /\
    (forall other, other <> addr ->
       test_info_test.account state' !! other = test_info_test.account state !! other) /\
    test_info_test.AddBalance state' addr amount = state /\
    (forall absent, test_info_test.account state !! absent = None ->
       test_info_test.SubBalance state absent amount = Panic).
Proof.
  intros Hb. unfold test_info_test.SubBalance. rewrite Hb.
  eexists. split; [reflexivity|].
  unfold test_info_test.GetBalance, test_info_test.AddBalance. simpl.
  rewrite lookup_insert_eq. split; [done|]. split.
  { intros other Hne. by rewrite lookup_insert_ne. }
  split.
  - destruct state as [m]. simpl in *. f_equal.
    rewrite insert_insert_eq.
    replace (b - amount + amount)%Z with b by lia. by apply insert_id.
  - by intros absent ->.
Qed.

Lemma X19_fakeStateDB_withdraw_witness :
  exists state',
    test_info_test.SubBalance fixtures_tx.demoState fixtures.aliceAddr 700
    = Returned state' /\
    (test_info_test.GetBalance state' fixtures.aliceAddr) = ((500 - 700)%Z, state') /\
    (forall other, other <> fixtures.aliceAddr ->
       test_info_test.account state' !! other
       = test_info_test.account fixtures_tx.demoState !! other) /\
    test_info_test.AddBalance state' fixtures.aliceAddr 700 = fixtures_tx.demoState /\
    (forall absent, test_info_test.account fixtures_tx.demoState !! absent = None ->
       test_info_test.SubBalance fixtures_tx.demoState absent 700 = Panic).
Proof.
  apply (X19_fakeStateDB_withdraw_and_deposit
           fixtures_tx.demoState fixtures.aliceAddr 500 700).
  reflexivity.
Defined.

(** * The three readers of one account agree *)

(** X20. When the stake, the balance and the last election of an address
    are read without error and the stake is not nil, [VerifierStatus]
    returns, and the stake and balance it reports are the ones
    [CurrentStake] and [CurrentBalance] return for the address. *)
Theorem X20_readers_agree_on_clean_reads
    (svc : service.MercuryFullChainService) (rd : service.StateReader)
    (addr : Address) (s : Z) (bal : service.BigInt) (le : uint64) :
  service.CurrentState svc = inr rd ->
  service.GetStake rd addr = (Some s, None) ->
  service.GetBalance rd addr = (bal, None) ->
  service.GetLastElect rd addr = (le, None) ->
  CurrentStake svc addr = Some s /\
  service.CurrentBalance svc addr = bal /\
  exists r,
    service.VerifierStatus svc addr = service.Returns r /\
    service.stake r = CurrentStake svc addr /\
    service.balance r = service.CurrentBalance svc addr.
Proof.
  intros Hst Hs Hb Hl.
  unfold CurrentStake, service.CurrentBalance, service.VerifierStatus,
    service.VerifierStatus_reads, service.VerifierStatus_classify.
  rewrite Hst, Hs, Hb, Hl. simpl.
  split; [done|]. split; [done|].
  destruct (service.CurrentReputation svc addr) as [rep er].
  eexists. split; [reflexivity|]. by split.
Qed.

Lemma X20_readers_agree_witness :
  CurrentStake fixtures.testService fixtures.aliceAddr = Some 0%Z /\
  service.CurrentBalance fixtures.testService fixtures.aliceAddr = Some 0%Z /\
  exists r,
    service.VerifierStatus fixtures.testService fixtures.aliceAddr = service.Returns r /\
    service.stake r = CurrentStake fixtures.testService fixtures.aliceAddr /\
    service.balance r = service.CurrentBalance fixtures.testService fixtures.aliceAddr.
Proof.
  apply (X20_readers_agree_on_clean_reads fixtures.testService fixtures.testReader
           fixtures.aliceAddr 0%Z (Some 0%Z) 0).
  - reflexivity.
  - vm_compute. reflexivity.
  - vm_compute. reflexivity.
  - vm_compute. reflexivity.
Defined.

(** [CreateAccount] sets the balance to 1000 over whatever the address
    held. *)
Example fakeStateDB_CreateAccount_resets :
  (test_info_test.GetBalance
     (test_info_test.CreateAccount fixtures_tx.demoState fixtures.aliceAddr)
     fixtures.aliceAddr).1 = 1000%Z.
Proof. reflexivity. Qed.
